(** * Inshorts harvester: fetch_content, parse_content, main and the
      DatabaseManagerSettings gateway, embedded from src/main.py and
      src/database/models.py.

    The Python code talks to three libraries: Playwright (a browser),
    BeautifulSoup (a parsed document) and pandas/SQLAlchemy (a frame and a
    table).  The document is embedded as the tree that html.parser builds,
    the browser as an environment that answers each call, and the table as
    a list of stored rows.  Exceptions are values of [Result]. *)

From Stdlib Require Import Ascii ZArith Lia.
From stdpp Require Import gmap strings list fin_maps pretty.

Set Warnings "-register-all".

Local Open Scope list_scope.

(** ** Exceptions and results *)

Inductive ExcClass : Type :=
| AttributeError | KeyError | IndexError | ValueError | TypeError
| TimeoutError | PlaywrightError | OSError | SQLAlchemyError | OverflowError.

(** Every class above derives from Python's [Exception]. *)
Record Exception : Type := mkExc { exc_class : ExcClass; exc_msg : string }.

Definition is_AttributeError (e : Exception) : bool :=
  match exc_class e with AttributeError => true | _ => false end.

Inductive Result (A : Type) : Type :=
| Return (a : A)
| Raise (e : Exception).
Arguments Return {A} a.
Arguments Raise {A} e.

Definition rbind {A B} (r : Result A) (k : A -> Result B) : Result B :=
  match r with
  | Return a => k a
  | Raise e => Raise e
  end.

Declare Scope result_scope.
Delimit Scope result_scope with result.
Notation "x <~ r ; k" := (rbind r (fun x => k))
  (at level 100, r at next level, right associativity) : result_scope.

(** ** Python strings *)

Module PyStr.

(** A Python str is embedded as its UTF-8 encoding, one [ascii] per
    byte.  No byte of a character beyond U+007F is below 128, so the
    ASCII separators and quotes of the program are found byte by byte. *)
Definition byte (c : ascii) : N := Ascii.N_of_ascii c.

(** The white-space characters of [str.isspace] below U+0080: TAB..CR,
    FS..US and the blank. *)
Definition ascii_space (c : ascii) : bool :=
  ((9 <=? byte c)%N && (byte c <=? 13)%N)
  || ((28 <=? byte c)%N && (byte c <=? 32)%N).

(** U+0085 and U+00A0 (the no-break space), as C2 85 and C2 A0. *)
Definition space2 (c d : ascii) : bool :=
  (byte c =? 194)%N && ((byte d =? 133)%N || (byte d =? 160)%N).

(** U+1680 (E1 9A 80); U+2000..U+200A, U+2028, U+2029 and U+202F
    (E2 80 80..8A, A8, A9, AF); U+205F (E2 81 9F); U+3000 (E3 80 80). *)
Definition space3 (c d e : ascii) : bool :=
  ((byte c =? 225)%N && (byte d =? 154)%N && (byte e =? 128)%N)
  || ((byte c =? 226)%N && (byte d =? 128)%N
      && (((128 <=? byte e)%N && (byte e <=? 138)%N)
          || (byte e =? 168)%N || (byte e =? 169)%N || (byte e =? 175)%N))
  || ((byte c =? 226)%N && (byte d =? 129)%N && (byte e =? 159)%N)
  || ((byte c =? 227)%N && (byte d =? 128)%N && (byte e =? 128)%N).

(** What follows the first character of [s], when that character is
    white space. *)
Definition space_prefix (s : string) : option string :=
  match s with
  | String c r =>
      if ascii_space c then Some r
      else match r with
           | String d r' =>
               if space2 c d then Some r'
               else match r' with
                    | String e r'' => if space3 c d e then Some r'' else None
                    | EmptyString => None
                    end
           | EmptyString => None
           end
  | EmptyString => None
  end.

(** [s.lstrip()]: white-space characters are dropped while there are
    some in front. *)
Fixpoint lstrip (s : string) : string :=
  match s with
  | String c r =>
      if ascii_space c then lstrip r
      else match r with
           | String d r' =>
               if space2 c d then lstrip r'
               else match r' with
                    | String e r'' => if space3 c d e then lstrip r'' else s
                    | EmptyString => s
                    end
           | EmptyString => s
           end
  | EmptyString => EmptyString
  end.

(** [s] is one white-space character. *)
Definition one_space (s : string) : bool :=
  match space_prefix s with
  | Some EmptyString => true
  | _ => false
  end.

(** [s.rstrip()], from the right end: a byte goes when, with what is
    kept to its right, it makes up one white-space character and nothing
    more. *)
Fixpoint rstrip (s : string) : string :=
  match s with
  | EmptyString => EmptyString
  | String c s' =>
      if one_space (String c (rstrip s')) then EmptyString
      else String c (rstrip s')
  end.

Definition strip (s : string) : string := rstrip (lstrip s).

(** [s] is made of white-space characters and nothing else. *)
Fixpoint all_space (s : string) : bool :=
  match s with
  | String c r =>
      if ascii_space c then all_space r
      else match r with
           | String d r' =>
               if space2 c d then all_space r'
               else match r' with
                    | String e r'' => if space3 c d e then all_space r'' else false
                    | EmptyString => false
                    end
           | EmptyString => false
           end
  | EmptyString => true
  end.

(** [s] holds a character that is not white space: it is not blank. *)
Definition visible (s : string) : bool := negb (all_space s).

(** Bytes 80..BF continue a character. *)
Definition continues (c : ascii) : bool :=
  (128 <=? byte c)%N && (byte c <? 192)%N.

(** How many bytes follow the first byte of a character; none is given
    for a byte that starts no character. *)
Definition followers (c : ascii) : option nat :=
  if (byte c <? 128)%N then Some 0%nat
  else if (byte c <? 194)%N then None
  else if (byte c <? 224)%N then Some 1%nat
  else if (byte c <? 240)%N then Some 2%nat
  else if (byte c <? 245)%N then Some 3%nat
  else None.

(** [s] is made of whole characters, after the [n] bytes that the
    character before it still needs.  The encoding of every str is
    [encoded 0]. *)
Fixpoint encoded (n : nat) (s : string) : bool :=
  match s with
  | EmptyString => (n =? 0)%nat
  | String c r =>
      match n with
      | S n' => continues c && encoded n' r
      | O => match followers c with
             | Some k => encoded k r
             | None => false
             end
      end
  end.

(** Truth value of a string: non-empty. *)
Definition truthy (s : string) : bool :=
  match s with EmptyString => false | _ => true end.

(** [s.split(sep)] for a one-character separator; never the empty list. *)
Fixpoint split (sep : ascii) (s : string) : list string :=
  match s with
  | EmptyString => [EmptyString]
  | String c s' =>
      if Ascii.eqb c sep then EmptyString :: split sep s'
      else match split sep s' with
           | [] => [String c EmptyString]
           | w :: ws => String c w :: ws
           end
  end.

(** [l[-1]]. *)
Definition last_item {A} (l : list A) : Result A :=
  match last l with
  | Some x => Return x
  | None => Raise (mkExc IndexError "list index out of range")
  end.

Fixpoint join (l : list string) : string :=
  match l with
  | [] => EmptyString
  | s :: l' => s +:+ join l'
  end.

End PyStr.

(** ** The parsed document (BeautifulSoup) *)

Module Bs4.

(** A node of the tree.  The multi-valued [class] attribute is kept as a
    list, the other attributes as a dict. *)
Inductive PageElement : Type :=
| NavigableString (text : string)
| Comment (text : string)
| Tag (name : string) (class_ : list string) (attrs : gmap string string)
      (contents : list PageElement).

(** What a selector sees of an ancestor. *)
Record Head : Type := mkHead { h_name : string; h_class : list string }.

(** A node together with its chain of ancestors, nearest first. *)
Record Element : Type := mkElement { parents : list Head; self : PageElement }.

(** The [BeautifulSoup] object is the root tag. *)
Definition BeautifulSoup (contents : list PageElement) : Element :=
  mkElement [] (Tag "[document]" [] ∅ contents).

(** [el.descendants], in document order. *)
Fixpoint descendants_of (anc : list Head) (el : PageElement) : list Element :=
  match el with
  | Tag n cl _ cs =>
      let anc' := mkHead n cl :: anc in
      (fix go (l : list PageElement) : list Element :=
         match l with
         | [] => []
         | c :: l' => mkElement anc' c :: descendants_of anc' c ++ go l'
         end) cs
  | _ => []
  end.

Definition descendants (e : Element) : list Element :=
  descendants_of (parents e) (self e).

(** A compound selector [name] or [name.class]. *)
Record Compound : Type := mkCompound { c_name : string; c_class : option string }.

(** Compounds joined by the descendant combinator, outermost first. *)
Definition Selector : Type := list Compound.

Definition has_class (c : string) (cl : list string) : bool :=
  existsb (String.eqb c) cl.

Definition match_head (c : Compound) (h : Head) : bool :=
  String.eqb (c_name c) (h_name h)
  && match c_class c with
     | Some k => has_class k (h_class h)
     | None => true
     end.

(** The remaining compounds, innermost first, against the ancestors,
    nearest first. *)
Fixpoint match_ancestors (cs : list Compound) (chain : list Head) : bool :=
  match cs with
  | [] => true
  | c :: cs' =>
      match chain with
      | [] => false
      | h :: chain' =>
          if match_head c h then match_ancestors cs' chain'
          else match_ancestors cs chain'
      end
  end.

Definition matches (sel : Selector) (e : Element) : bool :=
  match self e, rev sel with
  | Tag n cl _ _, subject :: outer =>
      match_head subject (mkHead n cl) && match_ancestors outer (parents e)
  | _, _ => false
  end.

(** [el.select(sel)] and [el.select_one(sel)]. *)
Definition select (sel : Selector) (e : Element) : list Element :=
  List.filter (matches sel) (descendants e).

Definition select_one (sel : Selector) (e : Element) : option Element :=
  head (select sel e).

(** The strings below a node, comments left out. *)
Fixpoint all_strings (el : PageElement) : list string :=
  match el with
  | NavigableString s => [s]
  | Comment _ => []
  | Tag _ _ _ cs =>
      (fix go (l : list PageElement) : list string :=
         match l with
         | [] => []
         | c :: l' => all_strings c ++ go l'
         end) cs
  end.

(** [el.get_text(strip=True)]: every string stripped, the empty ones
    dropped, the rest joined with nothing in between. *)
Definition get_text_strip (e : Element) : string :=
  PyStr.join (List.filter PyStr.truthy (map PyStr.strip (all_strings (self e)))).

(** [el.get(key)]: [None] when the attribute is missing. *)
Definition get (key : string) (e : Element) : option string :=
  match self e with
  | Tag _ _ at_ _ => at_ !! key
  | _ => None
  end.

(** [el[key]]: [KeyError] when the attribute is missing. *)
Definition getitem (key : string) (e : Element) : Result string :=
  match get key e with
  | Some v => Return v
  | None => Raise (mkExc KeyError key)
  end.

End Bs4.

(** ** Data of the pipeline *)

(** A value of the [urls] column: a link target, [None] or [np.nan]. *)
Inductive PyVal : Type :=
| PyString (s : string)
| PyNone
| PyNaN.

(** The dict built by parse_content, one list per key. *)
Record DetailData : Type := mkDetailData {
  category : list string;
  titles : list string;
  date : list string;
  descriptions : list string;
  urls : list PyVal
}.

(** One row of the frame, and of the table once it has an id. *)
Record Row : Type := mkRow {
  row_category : string;
  row_titles : string;
  row_date : string;
  row_descriptions : string;
  row_urls : PyVal
}.

Definition Frame : Type := list Row.

Fixpoint zip_rows (c t d ds : list string) (u : list PyVal) : Frame :=
  match c, t, d, ds, u with
  | c1 :: c', t1 :: t', d1 :: d', ds1 :: ds', u1 :: u' =>
      mkRow c1 t1 d1 ds1 u1 :: zip_rows c' t' d' ds' u'
  | _, _, _, _, _ => []
  end.

Definition same_length (dd : DetailData) : bool :=
  let n := length (category dd) in
  (n =? length (titles dd))%nat && (n =? length (date dd))%nat
  && (n =? length (descriptions dd))%nat && (n =? length (urls dd))%nat.

(** [pd.DataFrame(data)]: no rows for [None]; a dict of lists needs lists
    of one length. *)
Definition DataFrame (data : option DetailData) : Result Frame :=
  match data with
  | None => Return []
  | Some dd =>
      if same_length dd
      then Return (zip_rows (category dd) (titles dd) (date dd)
                            (descriptions dd) (urls dd))
      else Raise (mkExc ValueError "All arrays must be of the same length")
  end.

(** ** The world the program runs in *)

Inductive Output : Type :=
| Line (s : string)
| FrameDump (df : Frame).

Inductive Event : Type :=
| EvDriverStart
| EvLaunch
| EvNewPage
| EvGoto (url : string)
| EvWaitFor (selector : string)
| EvClick (selector : string)
| EvSleep (seconds : nat)
| EvContent
| EvBrowserClose
| EvDriverStop
| EvToCsv (path : string) (df : Frame)
| EvToJson (path : string) (df : Frame)
| EvConnect
| EvAdd (r : Row)
| EvCommit
| EvSessionClose.

Record World : Type := mkWorld {
  stdout : list Output;
  trace : list Event;
  table : list (Z * Row)
}.

(** A computation reads and changes the world and returns or raises. *)
Definition M (A : Type) : Type := World -> Result A * World.

Definition ret {A} (a : A) : M A := fun w => (Return a, w).
Definition raise {A} (e : Exception) : M A := fun w => (Raise e, w).
Definition lift {A} (r : Result A) : M A := fun w => (r, w).

Definition bind {A B} (m : M A) (k : A -> M B) : M B :=
  fun w =>
    match m w with
    | (Return a, w') => k a w'
    | (Raise e, w') => (Raise e, w')
    end.

(** [try: m  except Exception as e: h e]; the handler picks the clause by
    the class of [e]. *)
Definition try_except {A} (m : M A) (h : Exception -> M A) : M A :=
  fun w =>
    match m w with
    | (Return a, w') => (Return a, w')
    | (Raise e, w') => h e w'
    end.

(** [with ...: m]: [exit] runs on the way out, whatever [m] did. *)
Definition with_exit {A} (m : M A) (exit : M unit) : M A :=
  fun w =>
    let '(r, w') := m w in
    let '(_, w'') := exit w' in
    (r, w'').

Declare Scope m_scope.
Delimit Scope m_scope with M.
Notation "x <- m ;; k" := (bind m (fun x => k))
  (at level 100, m at next level, right associativity) : m_scope.
Notation "m ;; k" := (bind m (fun _ => k))
  (at level 100, right associativity) : m_scope.

Definition print (o : Output) : M unit :=
  fun w => (Return tt, mkWorld (stdout w ++ [o]) (trace w) (table w)).

Definition emit (ev : Event) : M unit :=
  fun w => (Return tt, mkWorld (stdout w) (trace w ++ [ev]) (table w)).

(** A call that the environment may fail. *)
Definition call (ev : Event) (fault : option Exception) : M unit :=
  match fault with
  | None => emit ev
  | Some e => raise e
  end.

(** ** parse_content *)

Module Extract.
Import Bs4.

Definition sel_titles : Selector :=
  [mkCompound "div" (Some "VdsPqrmJYY7F2MNUKOwQ");
   mkCompound "span" (Some "S2DdZEgzkqC9bYeTJUGw")].
Definition sel_descriptions : Selector :=
  [mkCompound "div" (Some "Hxtmf9GvkV8Ti6V0GUSn")].
Definition sel_dates : Selector := [mkCompound "span" (Some "date")].
Definition sel_category : Selector :=
  [mkCompound "div" (Some "EJbGYqFfRQOwX_PmlB2H"); mkCompound "a" None].
Definition sel_start_point : Selector :=
  [mkCompound "div" (Some "TfxplVx3RtbilOD2tqd6")].
Definition sel_url : Selector :=
  [mkCompound "div" (Some "c80ZAVi5M80kecYskLY3"); mkCompound "a" None].

(** [[x.get_text(strip=True) for x in els if x.get_text(strip=True)]]. *)
Definition texts (els : list Element) : list string :=
  List.filter PyStr.truthy (map get_text_strip els).

(** [select_category.get("href").split("/")[-1]]; a missing marker or a
    missing href is an attribute access on [None]. *)
Definition category_of (soup : Element) : Result string :=
  match select_one sel_category soup with
  | None =>
      Raise (mkExc AttributeError "'NoneType' object has no attribute 'get'")
  | Some a =>
      match get "href" a with
      | None =>
          Raise (mkExc AttributeError
                   "'NoneType' object has no attribute 'split'")
      | Some href => PyStr.last_item (PyStr.split "/"%char href)
      end
  end.

(** The body of the inner try of the loop, with its handler. *)
Definition url_of (point : Element) : Result PyVal :=
  let attempt :=
    match select_one sel_url point with
    | Some a => (v <~ getitem "href" a ; Return (PyString v))%result
    | None => Return PyNone
    end in
  match attempt with
  | Raise e => if is_AttributeError e then Return PyNaN else Raise e
  | Return v => Return v
  end.

(** [for point in start_point: ... detail_data["urls"].append(urls)]. *)
Fixpoint append_urls (points : list Element) (acc : list PyVal)
  : Result (list PyVal) :=
  match points with
  | [] => Return acc
  | p :: ps => (u <~ url_of p ; append_urls ps (acc ++ [u]))%result
  end.

(** [for _ in range(n): detail_data["category"].append(c)]. *)
Fixpoint append_category (n : nat) (c : string) (acc : list string)
  : list string :=
  match n with
  | O => acc
  | S n' => append_category n' c (acc ++ [c])
  end.

(** The try block of parse_content. *)
Definition parse_try (soup : Element) : Result DetailData :=
  (let titles_ := select sel_titles soup in
   let descriptions_ := select sel_descriptions soup in
   let dates_ := select sel_dates soup in
   c <~ category_of soup ;
   let t := texts titles_ in
   let d := texts dates_ in
   let ds := texts descriptions_ in
   let start_point := select sel_start_point soup in
   u <~ append_urls start_point [] ;
   Return (mkDetailData (append_category (length t) c []) t d ds u))%result.

(** [str(e)]: a [KeyError] shows its key quoted. *)
Definition str_exc (e : Exception) : string :=
  match exc_class e with
  | KeyError => "'" +:+ exc_msg e +:+ "'"
  | _ => exc_msg e
  end.

Definition parse_content (html_content : Element) : M (option DetailData) :=
  try_except
    (dd <- lift (parse_try html_content) ;; ret (Some dd))%M
    (fun e =>
       if is_AttributeError e
       then (print (Line ("A null pointer reference was encountered: "
                            +:+ str_exc e)) ;; ret None)%M
       else (print (Line ("An unhandled exception occurred: "
                            +:+ str_exc e)) ;; ret None)%M).

End Extract.

(** ** The texts of one container *)

Module WellFormed.
Import Bs4 Extract.

(** What the comprehension of parse_content would give on one container. *)
Definition texts_in (sel : Selector) (card : Element) : list string :=
  texts (select sel card).

End WellFormed.

(** ** The environment: what the browser, the clock, the file system and
       the storage engine answer *)

Record Env : Type := mkEnv {
  stdin : string;                       (* the line read by input() *)
  driver_start : option Exception;      (* entering async_playwright() *)
  launch : option Exception;
  new_page : option Exception;
  goto : string -> option Exception;
  wait_for_selector : option Exception;
  click : nat -> option Exception;      (* the call of page.click number k, from 0 *)
  elapsed : nat -> string;              (* end - start after k clicks *)
  content : string -> nat -> Result Bs4.Element;
                                        (* page.content() at url after k clicks *)
  browser_close : option Exception;
  now : string;                         (* strftime of datetime.now() *)
  to_csv : option Exception;
  to_json : option Exception;
  connect : option Exception;           (* create_engine and Session() *)
  commit : option Exception
}.

(** ** fetch_content *)

Module Fetch.

Definition load_more : string := "div.QMXJlc3R5MMJjDGSV4Jd".

(** Clicks made on the page opened last. *)
Definition clicks_on_page (tr : list Event) : nat :=
  fold_left (fun n ev =>
               match ev with
               | EvNewPage => O
               | EvClick _ => S n
               | _ => n
               end) tr O.

(** Whether a driver, and a browser, are running after the events.  The
    driver stops when the [async with] block is left, and its browsers
    go down with it. *)
Definition live (tr : list Event) : bool * bool :=
  fold_left (fun st ev =>
               match ev with
               | EvDriverStart => (true, snd st)
               | EvLaunch => (fst st, true)
               | EvBrowserClose => (fst st, false)
               | EvDriverStop => (false, false)
               | _ => st
               end) tr (false, false).

Definition session_closed (w : World) : Prop := live (trace w) = (false, false).

Section WithEnv.
Variable env : Env.

(** [for click in range(num_clicks)], [todo] iterations left. *)
Fixpoint click_loop (todo : nat) (click_ : nat) : M unit :=
  match todo with
  | O => ret tt
  | S todo' =>
      (call (EvClick load_more) (click env click_) ;;
       print (Line ("Click To 'Load More' " +:+ pretty (S click_)
                    +:+ ": The element was clicked successfully.")) ;;
       emit (EvSleep 1) ;;
       click_loop todo' (S click_))%M
  end.

Definition page_content (url : string) : M Bs4.Element :=
  fun w =>
    match content env url (clicks_on_page (trace w)) with
    | Return html =>
        (Return html, mkWorld (stdout w) (trace w ++ [EvContent]) (table w))
    | Raise e => (Raise e, w)
    end.

Definition time_taken : M unit :=
  fun w =>
    print (Line ("Time taken to click: "
                 +:+ elapsed env (clicks_on_page (trace w)))) w.

(** The inner try of fetch_content with its two handlers. *)
Definition click_phase (num_clicks : Z) : M unit :=
  try_except
    (click_loop (Z.to_nat num_clicks) O ;; time_taken)%M
    (fun e =>
       if is_AttributeError e
       then print (Line "The element is not visible, I'm done.")
       else (print (Line "An unhandled exception occurred:") ;; raise e)%M).

(** The body of the [async with] block. *)
Definition in_session (url : string) (num_clicks : Z) : M Bs4.Element :=
  (call EvLaunch (launch env) ;;
   call EvNewPage (new_page env) ;;
   call (EvGoto url) (goto env url) ;;
   call (EvWaitFor load_more) (wait_for_selector env) ;;
   click_phase num_clicks ;;
   html <- page_content url ;;
   call EvBrowserClose (browser_close env) ;;
   ret html)%M.

Definition fetch_content (url : string) (num_clicks : Z) : M Bs4.Element :=
  try_except
    (call EvDriverStart (driver_start env) ;;
     with_exit (in_session url num_clicks) (emit EvDriverStop))%M
    (fun e => (print (Line "An unhandled exception occurred:") ;; raise e)%M).

End WithEnv.

(** Load-more interactions made between two worlds. *)
Definition is_click (ev : Event) : bool :=
  match ev with EvClick _ => true | _ => false end.

Definition count_clicks (tr : list Event) : nat :=
  length (List.filter is_click tr).

Definition interactions (w w' : World) : nat :=
  count_clicks (trace w') - count_clicks (trace w).

(** What [j] rounds of the loop leave in the trace. *)
Fixpoint loop_events (j : nat) : list Event :=
  match j with
  | O => []
  | S j' => EvClick load_more :: EvSleep 1 :: loop_events j'
  end.

(** The events of a call that got to the clicks and made [j] of them. *)
Definition opened (w : World) (url : string) (j : nat) : list Event :=
  (((((trace w ++ [EvDriverStart]) ++ [EvLaunch]) ++ [EvNewPage])
      ++ [EvGoto url]) ++ [EvWaitFor load_more]) ++ loop_events j.

(** [m] makes [j] clicks, for some [j] with [P j], and leaves the table
    as it is. *)
Definition clicks {A} (P : nat -> Prop) (m : M A) : Prop :=
  forall w, exists j,
    count_clicks (trace (snd (m w))) = (count_clicks (trace w) + j)%nat
    /\ table (snd (m w)) = table w
    /\ P j.

Definition quiet {A} (m : M A) : Prop := clicks (fun j => j = O) m.

(** [j] clicks were made, no more than asked for, and each of them was
    answered. *)
Definition answered (env : Env) (num_clicks : Z) (j : nat) : Prop :=
  (j <= Z.to_nat num_clicks)%nat
  /\ forall i, (i < j)%nat -> click env i = None.

(** Navigation up to the first click goes through. *)
Definition navigates (env : Env) (url : string) : Prop :=
  driver_start env = None /\ launch env = None /\ new_page env = None
  /\ goto env url = None /\ wait_for_selector env = None.

End Fetch.

(** ** DatabaseManagerSettings *)

Module Db.

(** The ORM session of one manager: the objects added and not yet
    committed. *)
Record Session : Type := mkSession { pending : list Row }.

(** The last rowid of the engine. *)
Definition max_rowid : Z := 9223372036854775807.

(** The least positive id that is not among [ids]. *)
Definition unused_id (ids : list Z) : Z :=
  default 1%Z
    (find (fun k => negb (existsb (Z.eqb k) ids))
          (map Z.of_nat (seq 1 (S (length ids))))).

(** The id an INTEGER PRIMARY KEY column gets when the row names none: 1
    in an empty table, else one more than the largest stored.  When the
    largest is the last rowid the engine tries positive ids at random
    until one is unused; the least unused one stands for its choice. *)
Definition next_id (t : list (Z * Row)) : Z :=
  match map fst t with
  | [] => 1%Z
  | i :: ids =>
      let m := fold_right Z.max i ids in
      if (m <? max_rowid)%Z then (m + 1)%Z else unused_id (i :: ids)
  end.

Fixpoint flush (rows : list Row) (t : list (Z * Row)) : list (Z * Row) :=
  match rows with
  | [] => t
  | r :: rows' => flush rows' (t ++ [(next_id t, r)])
  end.

Definition init (fault : option Exception) : M Session :=
  (call EvConnect fault ;; ret (mkSession []))%M.

Definition session_add (r : Row) (s : Session) : M Session :=
  (emit (EvAdd r) ;; ret (mkSession (pending s ++ [r])))%M.

(** All pending rows become visible at once, or none at all. *)
Definition session_commit (fault : option Exception) (s : Session) : M Session :=
  match fault with
  | Some e => raise e
  | None =>
      fun w =>
        (Return (mkSession []),
         mkWorld (stdout w) (trace w ++ [EvCommit]) (flush (pending s) (table w)))
  end.

(** [for _, row in df.iterrows()]: one object per row is added. *)
Fixpoint add_rows (df : Frame) (s : Session) : M Session :=
  match df with
  | [] => ret s
  | r :: df' => (s' <- session_add r s ;; add_rows df' s')%M
  end.

Definition insert_data (fault : option Exception) (df : Frame) (s : Session)
  : M Session :=
  (s' <- add_rows df s ;; session_commit fault s')%M.

(** A filter clause: its truth value as Python computes it, and the rows
    it keeps. *)
Record Condition : Type := mkCondition {
  cond_bool : Result bool;
  cond_keeps : Z * Row -> bool
}.

(** The rows of the query, the id column included. *)
Definition read_data (conditions : option Condition) : M (list (Z * Row)) :=
  match conditions with
  | None => fun w => (Return (table w), w)
  | Some c =>
      (b <- lift (cond_bool c) ;;
       fun w => (Return (if b : bool then List.filter (cond_keeps c) (table w)
                         else table w), w))%M
  end.

Definition delete_all_data (fault : option Exception) : M unit :=
  match fault with
  | Some e => raise e
  | None =>
      fun w => (Return tt, mkWorld (stdout w) (trace w ++ [EvCommit]) [])
  end.

Definition close_connection (s : Session) : M unit := emit EvSessionClose.

(** A row of the data model: its url is a link target or [None].  What
    the engine makes of [np.nan] is left out. *)
Definition is_record (r : Row) : Prop := row_urls r <> PyNaN.

(** Two row lists with the same rows, order and repetition aside. *)
Definition set_equiv (l1 l2 : list Row) : Prop :=
  forall r, r ∈ l1 <-> r ∈ l2.

End Db.

(** ** main *)

Module Main.

Definition category_urls : gmap string string :=
  list_to_map
    [("india", "https://inshorts.com/en/read/national");
     ("business", "https://inshorts.com/en/read/business");
     ("politics", "https://inshorts.com/en/read/politics");
     ("sports", "https://inshorts.com/en/read/sports");
     ("technology", "https://inshorts.com/en/read/technology");
     ("startups", "https://inshorts.com/en/read/startup");
     ("entertainment", "https://inshorts.com/en/read/entertainment");
     ("hatke", "https://inshorts.com/en/read/hatke");
     ("international", "https://inshorts.com/en/read/world");
     ("automobile", "https://inshorts.com/en/read/automobile");
     ("science", "https://inshorts.com/en/read/science");
     ("travel", "https://inshorts.com/en/read/travel");
     ("miscellaneous", "https://inshorts.com/en/read/miscellaneous")].

Definition prompt : string :=
  "Enter category to scrape like (india, business, politics, sports, etc.): ".

Definition export_path (category_ date_time ext : string) : string :=
  "async-web-scraper-inshorts/dataset/inshorts_" +:+ category_ +:+ "_"
    +:+ date_time +:+ ext.

(** The world once the prompt is out. *)
Definition prompted (w : World) : World :=
  mkWorld (stdout w ++ [Line prompt]) (trace w) (table w).

(** Whether the run got to the commit of insert_data. *)
Definition reaches_commit (tr : list Event) : bool :=
  existsb (fun ev => match ev with EvCommit => true | _ => false end) tr.

(** What parse_content gives when the document has a marker and no
    article. *)
Definition no_records : DetailData := mkDetailData [] [] [] [] [].

Section WithEnv.
Variable env : Env.

(** What main does once the url is known. *)
Definition harvest (category_ url : string) : M unit :=
  (html_content <- Fetch.fetch_content env url 10%Z ;;
   detail_data <- Extract.parse_content html_content ;;
   df <- lift (DataFrame detail_data) ;;
   print (FrameDump df) ;;
   call (EvToCsv (export_path category_ (now env) ".csv") df) (to_csv env) ;;
   call (EvToJson (export_path category_ (now env) ".json") df) (to_json env) ;;
   db <- Db.init (connect env) ;;
   db' <- Db.insert_data (commit env) df db ;;
   Db.close_connection db')%M.

Definition main : M unit :=
  (print (Line prompt) ;;
   let category_ := stdin env in
   match category_urls !! category_ with
   | None => raise (mkExc KeyError category_)
   | Some url => harvest category_ url
   end)%M.

End WithEnv.

End Main.

(** ** Fixture documents *)

Module Fixture.
Import Bs4.

(** What one article card shows; [None] leaves the node out. *)
Record Article : Type := mkArticle {
  a_title : option string;
  a_date : option string;
  a_description : option string;
  a_url : option string
}.

Definition opt_node (o : option string) (f : string -> PageElement)
  : list PageElement :=
  match o with
  | Some s => [f s]
  | None => []
  end.

Definition title_node (s : string) : PageElement :=
  Tag "div" ["VdsPqrmJYY7F2MNUKOwQ"] ∅
    [Tag "span" ["S2DdZEgzkqC9bYeTJUGw"] ∅ [NavigableString s]].
Definition date_node (s : string) : PageElement :=
  Tag "span" ["date"] ∅ [NavigableString s].
Definition description_node (s : string) : PageElement :=
  Tag "div" ["Hxtmf9GvkV8Ti6V0GUSn"] ∅ [NavigableString s].
Definition url_node (s : string) : PageElement :=
  Tag "div" ["c80ZAVi5M80kecYskLY3"] ∅
    [Tag "a" [] {[ "href" := s ]} [NavigableString "read more"]].

Definition card (a : Article) : PageElement :=
  Tag "div" ["TfxplVx3RtbilOD2tqd6"] ∅
    (opt_node (a_title a) title_node
     ++ opt_node (a_date a) date_node
     ++ opt_node (a_description a) description_node
     ++ opt_node (a_url a) url_node).

Definition marker (href : string) : PageElement :=
  Tag "div" ["EJbGYqFfRQOwX_PmlB2H"] ∅ [Tag "a" [] {[ "href" := href ]} []].

(** A category page: the marker, then one card per article. *)
Definition page (href : string) (arts : list Article) : Element :=
  BeautifulSoup
    [Tag "html" [] ∅ [Tag "body" [] ∅ (marker href :: map card arts)]].

Definition w0 : World := mkWorld [] [] [].

(** The ancestors of a card on a page, nearest first. *)
Definition card_parents : list Head :=
  [mkHead "body" []; mkHead "html" []; mkHead "[document]" []].

Definition card_element (a : Article) : Element :=
  mkElement card_parents (card a).

(** The elements of a page above and before its cards, in document order. *)
Definition page_top (href : string) (arts : list Article) : list Element :=
  let body := Tag "body" [] ∅ (marker href :: map card arts) in
  [mkElement [mkHead "[document]" []] (Tag "html" [] ∅ [body]);
   mkElement [mkHead "html" []; mkHead "[document]" []] body;
   mkElement card_parents (marker href);
   mkElement (mkHead "div" ["EJbGYqFfRQOwX_PmlB2H"] :: card_parents)
             (Tag "a" [] {[ "href" := href ]} [])].

(** A field that is there and holds a character that is not white
    space. *)
Definition shown (o : option string) : bool :=
  match o with
  | Some s => PyStr.visible s
  | None => false
  end.

(** An article that shows a title, a date and a description: the cards
    of such articles make a well-formed page. *)
Definition complete (a : Article) : bool :=
  shown (a_title a) && shown (a_date a) && shown (a_description a).

(** The text a field is read back as. *)
Definition field (o : option string) : string :=
  match o with
  | Some s => PyStr.strip s
  | None => ""
  end.

Definition link (a : Article) : PyVal :=
  match a_url a with
  | Some u => PyString u
  | None => PyNone
  end.

(** An environment in which only page.click may fail. *)
Definition browser (stdin_ : string) (doc : Element)
           (click_ : nat -> option Exception) : Env :=
  mkEnv stdin_ None None None (fun _ => None) None click_
        (fun _ => "0:00:10") (fun _ _ => Return doc) None
        "2024-01-01_00-00" None None None None.

Definition always_there : nat -> option Exception := fun _ => None.

(** The control is gone at click number [k]; [page.click] then raises [e]. *)
Definition gone_at (k : nat) (e : Exception) : nat -> option Exception :=
  fun i => if (i <? k)%nat then None else Some e.

(** What Playwright raises when the element of a click does not show up
    within the timeout. *)
Definition click_timeout : Exception :=
  mkExc TimeoutError "Page.click: Timeout 30000ms exceeded.".

Definition sports_url : string := "https://inshorts.com/en/read/sports".

Definition row1 : Row := mkRow "sports" "T1" "d1" "D1" (PyString "https://x/1").
Definition row2 : Row := mkRow "sports" "T2" "d2" "D2" PyNone.

(** A world whose table already holds a row of an earlier run. *)
Definition w_rerun : World := mkWorld [] [] [(1%Z, row1)].

(** Two articles, the second without a link. *)
Definition two_articles : Element :=
  page "/en/read/sports"
    [mkArticle (Some "T1") (Some "d1") (Some "D1") (Some "https://x/1");
     mkArticle (Some "T2") (Some "d2") (Some "D2") None].

(** The same page with the date of the first article left blank. *)
Definition blank_first_date : Element :=
  page "/en/read/sports"
    [mkArticle (Some "T1") (Some "  ") (Some "D1") (Some "https://x/1");
     mkArticle (Some "T2") (Some "d2") (Some "D2") None].

(** [&nbsp;] and the ideographic space, as html.parser hands them on. *)
Definition nbsp : string :=
  String (ascii_of_N 194) (String (ascii_of_N 160) "").
Definition ideographic_space : string :=
  String (ascii_of_N 227) (String (ascii_of_N 128) (String (ascii_of_N 128) "")).

(** Two articles whose texts come with white space around them. *)
Definition padded : list Article :=
  [mkArticle (Some ("  First title" +:+ nbsp)) (Some (nbsp +:+ "1 May "))
             (Some (ideographic_space +:+ "One.  ")) (Some "https://x/1");
   mkArticle (Some "Second title") (Some "2 May") (Some "Two.") None].

(** The first page with the date of the first article made of [&nbsp;]
    alone. *)
Definition nbsp_first_date : Element :=
  page "/en/read/sports"
    [mkArticle (Some "T1") (Some nbsp) (Some "D1") (Some "https://x/1");
     mkArticle (Some "T2") (Some "d2") (Some "D2") None].

End Fixture.

(** ** Observations on traces *)

Module Observe.

(** An observation of the trace that [m] leaves as it found it. *)
Definition preserves {X A} (f : list Event -> X) (m : M A) : Prop :=
  forall w, f (trace (snd (m w))) = f (trace w).

(** [m] does not change the table. *)
Definition keeps_table {A} (m : M A) : Prop :=
  forall w, table (snd (m w)) = table w.

(** The observation does not see the event. *)
Definition ignores {X} (f : list Event -> X) (ev : Event) : Prop :=
  forall tr, f (tr ++ [ev]) = f tr.

(** The events of fetch_content outside its loop. *)
Definition is_step (ev : Event) : bool :=
  match ev with
  | EvDriverStart | EvLaunch | EvNewPage | EvGoto _ | EvWaitFor _
  | EvContent | EvBrowserClose | EvDriverStop => true
  | _ => false
  end.

(** The events of fetch_content. *)
Definition is_browser (ev : Event) : bool :=
  match ev with
  | EvDriverStart | EvLaunch | EvNewPage | EvGoto _ | EvWaitFor _
  | EvClick _ | EvSleep _ | EvContent | EvBrowserClose | EvDriverStop => true
  | _ => false
  end.

(** What happened outside the browser: exports and storage. *)
Definition outside_browser (tr : list Event) : list Event :=
  List.filter (fun ev => negb (is_browser ev)) tr.

(** The one-second pauses. *)
Definition is_pause (ev : Event) : bool :=
  match ev with
  | EvSleep 1 => true
  | _ => false
  end.

Definition count_pauses (tr : list Event) : nat :=
  length (List.filter is_pause tr).

(** Clicks not yet followed by their pause. *)
Definition unpaced (tr : list Event) : Z :=
  (Z.of_nat (Fetch.count_clicks tr) - Z.of_nat (count_pauses tr))%Z.

Definition is_session_close (ev : Event) : bool :=
  match ev with
  | EvSessionClose => true
  | _ => false
  end.

Definition count_closes (tr : list Event) : nat :=
  length (List.filter is_session_close tr).

(** The first step of navigation that the environment fails, in the order
    fetch_content takes them. *)
Definition first_fault (env : Env) (url : string) : option Exception :=
  match driver_start env with
  | Some e => Some e
  | None =>
      match launch env with
      | Some e => Some e
      | None =>
          match new_page env with
          | Some e => Some e
          | None =>
              match goto env url with
              | Some e => Some e
              | None => wait_for_selector env
              end
          end
      end
  end.

End Observe.

(** ** Path segments and trimmed text *)

Module Segments.

(** No occurrence of [sep] in [s]. *)
Fixpoint free_of (sep : ascii) (s : string) : bool :=
  match s with
  | EmptyString => true
  | String c s' => negb (Ascii.eqb c sep) && free_of sep s'
  end.

(** What follows the last [sep] of [s]; the whole of [s] when it has
    none. *)
Definition after_last (sep : ascii) (s c : string) : Prop :=
  free_of sep c = true
  /\ (s = c \/ exists prefix, s = prefix +:+ String sep c).

(** No end of [t] is a white-space character. *)
Definition no_space_suffix (t : string) : Prop :=
  forall x e, t = x +:+ e -> PyStr.one_space e = false.

(** No white-space character at the left end of [t] and none at its
    right end. *)
Definition trimmed (t : string) : Prop :=
  PyStr.space_prefix t = None /\ no_space_suffix t.

(** Every string of the document is the encoding of a str. *)
Definition encoded_document (soup : Bs4.Element) : bool :=
  forallb (fun e => forallb (PyStr.encoded 0) (Bs4.all_strings (Bs4.self e)))
          (Bs4.descendants soup).

(** [t] is [s] without the white space at its two ends. *)
Definition trims (s t : string) : Prop :=
  exists l r,
    s = l +:+ t +:+ r
    /\ PyStr.all_space l = true /\ PyStr.all_space r = true /\ trimmed t.

(** The field is there and [t] is its text, white space at the ends
    taken off. *)
Definition shows (o : option string) (t : string) : Prop :=
  exists s, o = Some s /\ trims s t.

(** The anchor of a container has no link target. *)
Definition bare_anchor (sel : Bs4.Selector) (el : Bs4.Element) : Prop :=
  exists a, Bs4.select_one sel el = Some a /\ Bs4.get "href" a = None.

(** What the url of a container is read from. *)
Definition url_from (card : Bs4.Element) (u : PyVal) : Prop :=
  match Bs4.select_one Extract.sel_url card with
  | Some a => exists h, Bs4.get "href" a = Some h /\ u = PyString h
  | None => u = PyNone
  end.

End Segments.

(** ** Further fixtures *)

Module Fixture2.
Import Bs4.

(** The anchor of the category marker of a page. *)
Definition marker_anchor (href : string) : Element :=
  mkElement (mkHead "div" ["EJbGYqFfRQOwX_PmlB2H"] :: Fixture.card_parents)
            (Tag "a" [] {[ "href" := href ]} []).

(** A page whose only article container has an anchor without href. *)
Definition bare_page : Element :=
  BeautifulSoup
    [Fixture.marker "/en/read/sports";
     Tag "div" ["TfxplVx3RtbilOD2tqd6"] ∅
       [Tag "div" ["c80ZAVi5M80kecYskLY3"] ∅ [Tag "a" [] ∅ []]]].

Definition bare_card : Element :=
  mkElement [mkHead "[document]" []]
    (Tag "div" ["TfxplVx3RtbilOD2tqd6"] ∅
       [Tag "div" ["c80ZAVi5M80kecYskLY3"] ∅ [Tag "a" [] ∅ []]]).

Definition two_articles_data : DetailData :=
  mkDetailData ["sports"; "sports"] ["T1"; "T2"] ["d1"; "d2"]
               ["D1"; "D2"] [PyString "https://x/1"; PyNone].

(** A table of two rows. *)
Definition w_two_rows : World :=
  mkWorld [] [] [(1%Z, Fixture.row1); (2%Z, Fixture.row2)].

(** What the padded page is read as. *)
Definition padded_data : DetailData :=
  mkDetailData ["sports"; "sports"] ["First title"; "Second title"]
               ["1 May"; "2 May"] ["One."; "Two."]
               [PyString "https://x/1"; PyNone].

Definition storage_fault : Exception :=
  mkExc SQLAlchemyError "database is locked".

Definition navigation_fault : Exception :=
  mkExc PlaywrightError "net::ERR_NAME_NOT_RESOLVED".

(** An environment that fails [goto]. *)
Definition offline (stdin_ : string) : Env :=
  mkEnv stdin_ None None None (fun _ => Some navigation_fault) None
        (fun _ => None) (fun _ => "0:00:00")
        (fun _ _ => Return Fixture.two_articles) None
        "2024-01-01_00-00" None None None None.

(** An environment whose storage fails the commit. *)
Definition locked (stdin_ : string) (doc : Element) : Env :=
  mkEnv stdin_ None None None (fun _ => None) None
        (fun _ => None) (fun _ => "0:00:10") (fun _ _ => Return doc) None
        "2024-01-01_00-00" None None None (Some storage_fault).

End Fixture2.

(** ** The last part of main *)

Module Pipeline.

(** What main does with the frame: print it, export it twice, open the
    session, insert and close. *)
Definition store (env : Env) (category_ : string) (df : Frame) : M unit :=
  (print (FrameDump df) ;;
   call (EvToCsv (Main.export_path category_ (now env) ".csv") df) (to_csv env) ;;
   call (EvToJson (Main.export_path category_ (now env) ".json") df)
        (to_json env) ;;
   db <- Db.init (connect env) ;;
   db' <- Db.insert_data (commit env) df db ;;
   Db.close_connection db')%M.

(** The events of a run of [store] in which nothing fails. *)
Definition stored (env : Env) (category_ : string) (df : Frame) : list Event :=
  [EvToCsv (Main.export_path category_ (now env) ".csv") df;
   EvToJson (Main.export_path category_ (now env) ".json") df;
   EvConnect]
  ++ map EvAdd df ++ [EvCommit; EvSessionClose].

(** Exports and storage never fail. *)
Definition reliable (env : Env) : Prop :=
  to_csv env = None /\ to_json env = None /\ connect env = None
  /\ commit env = None.

End Pipeline.

(** ** update_data *)

Module DbUpdate.

(** The [updates] dict: at most one value for each column of the model. *)
Record Updates : Type := mkUpdates {
  set_id : option Z;
  set_category : option string;
  set_titles : option string;
  set_date : option string;
  set_descriptions : option string;
  set_urls : option PyVal
}.

(** The empty dict. *)
Definition no_updates (u : Updates) : bool :=
  match u with
  | mkUpdates None None None None None None => true
  | _ => false
  end.

(** The value of a column after the statement. *)
Definition put {A} (new : option A) (old : A) : A :=
  match new with
  | Some v => v
  | None => old
  end.

Definition apply_updates (u : Updates) (ir : Z * Row) : Z * Row :=
  (put (set_id u) (fst ir),
   mkRow (put (set_category u) (row_category (snd ir)))
         (put (set_titles u) (row_titles (snd ir)))
         (put (set_date u) (row_date (snd ir)))
         (put (set_descriptions u) (row_descriptions (snd ir)))
         (put (set_urls u) (row_urls (snd ir)))).

(** An UPDATE with nothing to set is not a statement. *)
Definition statement_error : Exception :=
  mkExc SQLAlchemyError "(sqlite3.OperationalError) incomplete input".

(** An id beyond the 64 bits of a rowid cannot be bound. *)
Definition out_of_range (u : Updates) : bool :=
  match set_id u with
  | Some v => (v <? - Db.max_rowid - 1)%Z || (Db.max_rowid <? v)%Z
  | None => false
  end.

Definition bind_error : Exception :=
  mkExc OverflowError "Python int too large to convert to SQLite INTEGER".

(** The statement has no WHERE clause, so a new id goes to every row, and
    the primary key refuses it once the table holds two rows. *)
Definition key_conflict (u : Updates) (t : list (Z * Row)) : bool :=
  match set_id u with
  | Some _ => (2 <=? length t)%nat
  | None => false
  end.

Definition integrity_error : Exception :=
  mkExc SQLAlchemyError "(sqlite3.IntegrityError) UNIQUE constraint failed".

(** [self.session.query(model).update(updates, synchronize_session=False)]
    and the commit.  The query has no filter, so the assignment goes to
    every row; an exception of the statement or of the commit leaves
    update_data, and the table stays as it was. *)
Definition update_data (fault : option Exception) (u : Updates) : M unit :=
  fun w =>
    if no_updates u then (Raise statement_error, w)
    else if out_of_range u then (Raise bind_error, w)
    else if key_conflict u (table w) then (Raise integrity_error, w)
    else
      match fault with
      | Some e => (Raise e, w)
      | None =>
          (Return tt,
           mkWorld (stdout w) (trace w ++ [EvCommit])
                   (map (apply_updates u) (table w)))
      end.

(** What a dict entry asks of a column: the value it gives, or the old
    value when the dict has no entry for the column. *)
Definition written {A} (entry : option A) (old new : A) : Prop :=
  match entry with
  | Some v => new = v
  | None => new = old
  end.

(** [new] is [old] after the update: each column as its entry asks. *)
Definition updated (u : Updates) (old new : Z * Row) : Prop :=
  written (set_id u) (fst old) (fst new)
  /\ written (set_category u) (row_category (snd old)) (row_category (snd new))
  /\ written (set_titles u) (row_titles (snd old)) (row_titles (snd new))
  /\ written (set_date u) (row_date (snd old)) (row_date (snd new))
  /\ written (set_descriptions u) (row_descriptions (snd old))
             (row_descriptions (snd new))
  /\ written (set_urls u) (row_urls (snd old)) (row_urls (snd new)).

End DbUpdate.

(** * Properties *)

(** ** Strings *)

Module PyStrFacts.
Import PyStr.

Lemma split_nonempty sep s : split sep s <> [].
Proof.
  induction s as [|c s IH]; simpl; [discriminate|].
  destruct (Ascii.eqb c sep); [discriminate|].
  destruct (split sep s); discriminate.
Qed.

Lemma last_item_split sep s : exists x, last_item (split sep s) = Return x.
Proof.
  unfold last_item.
  destruct (last (split sep s)) as [x|] eqn:E; [eauto|].
  apply last_None in E. destruct (split_nonempty _ _ E).
Qed.

Lemma append_cons c (x z : string) : String c x +:+ z = String c (x +:+ z).
Proof. reflexivity. Qed.

Lemma append_nil_l (z : string) : "" +:+ z = z.
Proof. reflexivity. Qed.

Lemma append_nil_r (s : string) : s +:+ "" = s.
Proof.
  induction s as [|c s IH]; [reflexivity|]. now rewrite append_cons, IH.
Qed.

Lemma append_assoc (x y z : string) : (x +:+ y) +:+ z = x +:+ (y +:+ z).
Proof.
  induction x as [|c x IH]; [reflexivity|]. now rewrite !append_cons, IH.
Qed.

Lemma lstrip_step s :
  lstrip s = match space_prefix s with Some r => lstrip r | None => s end.
Proof.
  destruct s as [|c [|d [|e s]]]; try reflexivity;
    cbn [lstrip all_space space_prefix];
    repeat match goal with
           | |- context [if ?b then _ else _] => destruct b; try reflexivity
           end.
Qed.

Lemma all_space_step s :
  all_space s = match s with
                | EmptyString => true
                | _ => match space_prefix s with
                       | Some r => all_space r
                       | None => false
                       end
                end.
Proof.
  destruct s as [|c [|d [|e s]]]; try reflexivity;
    cbn [lstrip all_space space_prefix];
    repeat match goal with
           | |- context [if ?b then _ else _] => destruct b; try reflexivity
           end.
Qed.

Lemma space_prefix_app x y z :
  space_prefix x = Some y -> space_prefix (x +:+ z) = Some (y +:+ z).
Proof.
  destruct x as [|c [|d [|e x]]]; simpl; try discriminate;
    rewrite ?append_cons; simpl;
    repeat match goal with |- context [if ?b then _ else _] => destruct b end;
    try discriminate; intros [= <-]; reflexivity.
Qed.

Lemma space_prefix_split s r :
  space_prefix s = Some r -> exists e, s = e +:+ r /\ one_space e = true.
Proof.
  unfold one_space.
  destruct s as [|c [|d [|e s]]]; simpl; try discriminate;
    destruct (ascii_space c) eqn:E1; try discriminate;
    try (intros [= <-]; exists (String c ""); simpl; rewrite E1; now split).
  - destruct (space2 c d) eqn:E2; [|discriminate].
    intros [= <-]. exists (String c (String d "")). simpl. rewrite E1, E2. now split.
  - destruct (space2 c d) eqn:E2.
    + intros [= <-]. exists (String c (String d "")). simpl. rewrite E1, E2. now split.
    + destruct (space3 c d e) eqn:E3; [|discriminate].
      intros [= <-]. exists (String c (String d (String e ""))). simpl.
      rewrite E1, E2, E3. now split.
Qed.

Lemma length_append (x y : string) :
  String.length (x +:+ y) = (String.length x + String.length y)%nat.
Proof.
  induction x as [|c x IH]; [reflexivity|]. rewrite append_cons. simpl. now rewrite IH.
Qed.

Lemma one_space_nonempty e : one_space e = true -> e <> "".
Proof. intros H ->. discriminate. Qed.

Lemma space_prefix_shorter s r :
  space_prefix s = Some r -> (String.length r < String.length s)%nat.
Proof.
  intros H. destruct (space_prefix_split _ _ H) as (e & -> & He).
  rewrite length_append. destruct e; [discriminate|]. simpl. lia.
Qed.

Lemma by_length (P : string -> Prop) :
  (forall s, (forall r, (String.length r < String.length s)%nat -> P r) -> P s) ->
  forall s, P s.
Proof.
  intros H s. remember (String.length s) as n eqn:En. revert s En.
  induction n as [n IH] using lt_wf_ind. intros s ->.
  apply H. intros r Hr. now apply (IH _ Hr).
Qed.

Lemma one_space_prefix e : one_space e = true -> space_prefix e = Some "".
Proof.
  unfold one_space. destruct (space_prefix e) as [[|]|]; congruence.
Qed.

Lemma all_space_one e r :
  one_space e = true -> all_space (e +:+ r) = all_space r.
Proof.
  intros He. rewrite all_space_step.
  rewrite (space_prefix_app _ _ r (one_space_prefix _ He)).
  destruct e; [discriminate|]. reflexivity.
Qed.

(** What [lstrip] leaves does not start with white space. *)
Lemma lstrip_starts s : space_prefix (lstrip s) = None.
Proof.
  induction s as [s IH] using by_length.
  rewrite lstrip_step. destruct (space_prefix s) as [r|] eqn:E; [|exact E].
  apply IH. now apply space_prefix_shorter.
Qed.

(** What [lstrip] takes away is white space. *)
Lemma lstrip_split s : exists l, s = l +:+ lstrip s /\ all_space l = true.
Proof.
  induction s as [s IH] using by_length.
  rewrite lstrip_step. destruct (space_prefix s) as [r|] eqn:E.
  - destruct (space_prefix_split _ _ E) as (e & -> & He).
    destruct (IH r (space_prefix_shorter _ _ E)) as (l & Hl & Hsp).
    exists (e +:+ l). rewrite append_assoc, <- Hl. split; [reflexivity|].
    now rewrite all_space_one.
  - exists "". now split.
Qed.

Lemma lstrip_visible s : visible s = true -> lstrip s <> "".
Proof.
  unfold visible. intros Hv Hl.
  destruct (lstrip_split s) as (l & Hs & Hsp). rewrite Hl, append_nil_r in Hs.
  subst l. rewrite Hsp in Hv. discriminate.
Qed.

(** What [rstrip] takes away is white space at the right end. *)
Lemma rstrip_split u : exists r, u = rstrip u +:+ r /\ all_space r = true.
Proof.
  induction u as [|c u (r & Hu & Hr)]; [exists ""; now split|].
  simpl. destruct (one_space (String c (rstrip u))) eqn:E.
  - exists (String c (rstrip u) +:+ r). split.
    + now rewrite append_nil_l, append_cons, <- Hu.
    + now rewrite all_space_one.
  - exists r. split; [now rewrite append_cons, <- Hu | exact Hr].
Qed.

Lemma rstrip_starts u : space_prefix u = None -> space_prefix (rstrip u) = None.
Proof.
  intros Hu. destruct (rstrip_split u) as (r & Hs & _).
  destruct (space_prefix (rstrip u)) as [y|] eqn:E; [|reflexivity].
  apply (space_prefix_app _ _ r) in E. rewrite <- Hs in E. congruence.
Qed.

Lemma rstrip_nonempty u :
  space_prefix u = None -> u <> "" -> rstrip u <> "".
Proof.
  intros Hu Hne. destruct u as [|c u]; [congruence|]. simpl.
  destruct (one_space (String c (rstrip u))) eqn:E; [|discriminate].
  exfalso. destruct (rstrip_split u) as (r & Hs & _).
  apply one_space_prefix, (space_prefix_app _ _ r) in E.
  rewrite append_cons, <- Hs in E. congruence.
Qed.

(** What [rstrip] leaves does not end with white space. *)
Lemma rstrip_ends u x e : rstrip u = x +:+ e -> one_space e = false.
Proof.
  revert x. induction u as [|c u IH]; intros x; simpl.
  - destruct x; [|discriminate]. rewrite append_nil_l. now intros <-.
  - destruct (one_space (String c (rstrip u))) eqn:E.
    + destruct x; [|discriminate]. rewrite append_nil_l. now intros <-.
    + destruct x as [|c' x].
      * rewrite append_nil_l. now intros <-.
      * rewrite append_cons. intros [= _ H]. exact (IH _ H).
Qed.

(** A string with something visible in it strips to something. *)
Lemma strip_visible s : visible s = true -> exists c t, strip s = String c t.
Proof.
  intros Hv. unfold strip.
  pose proof (rstrip_nonempty (lstrip s) (lstrip_starts s) (lstrip_visible s Hv)).
  destruct (rstrip (lstrip s)) as [|c t]; [congruence | eauto].
Qed.

Lemma strip_starts s : space_prefix (strip s) = None.
Proof. unfold strip. apply rstrip_starts, lstrip_starts. Qed.

Lemma nonempty_visible s :
  s <> "" -> space_prefix s = None -> visible s = true.
Proof.
  intros Hne Hs. unfold visible. rewrite all_space_step, Hs.
  destruct s; [congruence | reflexivity].
Qed.

End PyStrFacts.

(** ** Computations *)

Section MonadFacts.
Context {A B : Type}.

Lemma bind_return (m : M A) (k : A -> M B) w a w' :
  m w = (Return a, w') -> bind m k w = k a w'.
Proof. intros H. unfold bind. now rewrite H. Qed.

Lemma bind_raise (m : M A) (k : A -> M B) w e w' :
  m w = (Raise e, w') -> bind m k w = (Raise e, w').
Proof. intros H. unfold bind. now rewrite H. Qed.

End MonadFacts.

(** ** parse_content *)

Module ExtractFacts.
Import Bs4 Extract.

Lemma append_category_replicate n c acc :
  append_category n c acc = acc ++ replicate n c.
Proof.
  revert acc. induction n as [|n IH]; intros acc; simpl.
  - now rewrite app_nil_r.
  - rewrite IH, <- app_assoc. reflexivity.
Qed.

(** What parse_content gives, by the outcome of its try block. *)
Lemma parse_content_ok soup dd w :
  parse_try soup = Return dd -> parse_content soup w = (Return (Some dd), w).
Proof.
  intros H. unfold parse_content, try_except, bind, lift, ret. now rewrite H.
Qed.

Lemma parse_content_caught soup e w :
  parse_try soup = Raise e ->
  exists line,
    parse_content soup w
    = (Return None, mkWorld (stdout w ++ [Line line]) (trace w) (table w)).
Proof.
  intros H. unfold parse_content, try_except, bind, lift, ret, print.
  rewrite H. destruct (is_AttributeError e); eexists; reflexivity.
Qed.

(** Either way the world only gains what was printed. *)
Lemma parse_content_world soup w :
  (exists dd, parse_content soup w = (Return (Some dd), w))
  \/ (exists line,
        parse_content soup w
        = (Return None, mkWorld (stdout w ++ [Line line]) (trace w) (table w))).
Proof.
  destruct (parse_try soup) as [dd|e] eqn:E.
  - left. exists dd. now apply parse_content_ok.
  - right. now apply (parse_content_caught soup e).
Qed.

Lemma parse_content_Some soup w dd w' :
  parse_content soup w = (Return (Some dd), w') ->
  parse_try soup = Return dd /\ w' = w.
Proof.
  intros H. destruct (parse_try soup) as [dd'|e] eqn:E.
  - rewrite (parse_content_ok _ _ _ E) in H. now inversion H.
  - destruct (parse_content_caught soup e w E) as [line Hl].
    rewrite Hl in H. discriminate.
Qed.

Lemma parse_try_category soup dd :
  parse_try soup = Return dd ->
  exists c, category_of soup = Return c
            /\ category dd = replicate (length (titles dd)) c.
Proof.
  unfold parse_try, rbind. intros H.
  destruct (category_of soup) as [c|] eqn:Ec; [|discriminate].
  destruct (append_urls _ _) as [u|]; [|discriminate].
  injection H as <-. exists c. split; [reflexivity|].
  simpl. now rewrite append_category_replicate.
Qed.

(** C3: parse_content never raises.  Whatever goes wrong inside its try
    block comes back as [None] with one diagnostic line printed; a
    missing category marker is such a failure; with the marker in place
    and nothing matched it returns the dict of empty lists. *)
Theorem parse_content_never_raises soup w :
  (exists o w', parse_content soup w = (Return o, w'))
  /\ (forall e, parse_try soup = Raise e ->
       exists line,
         parse_content soup w
         = (Return None, mkWorld (stdout w ++ [Line line]) (trace w) (table w)))
  /\ (select_one sel_category soup = None ->
       exists e, parse_try soup = Raise e
                 /\ fst (parse_content soup w) = Return None)
  /\ (forall c,
        category_of soup = Return c ->
        select sel_titles soup = [] -> select sel_dates soup = [] ->
        select sel_descriptions soup = [] -> select sel_start_point soup = [] ->
        parse_content soup w = (Return (Some (mkDetailData [] [] [] [] [])), w)).
Proof.
  split; [|split; [|split]].
  - destruct (parse_try soup) as [dd|e] eqn:E.
    + rewrite (parse_content_ok _ _ _ E). eauto.
    + destruct (parse_content_caught soup e w E) as [line ->]. eauto.
  - intros e E. exact (parse_content_caught soup e w E).
  - intros Hnone.
    assert (E : parse_try soup
                = Raise (mkExc AttributeError
                           "'NoneType' object has no attribute 'get'")).
    { unfold parse_try, category_of. now rewrite Hnone. }
    eexists. split; [exact E|].
    destruct (parse_content_caught soup _ w E) as [line ->]. reflexivity.
  - intros c Hc Ht Hd Hds Hsp. apply parse_content_ok.
    unfold parse_try. rewrite Hc, Ht, Hd, Hds, Hsp. reflexivity.
Qed.

Lemma parse_content_never_raises_witness :
  parse_content (Fixture.page "/en/read/sports" []) Fixture.w0
  = (Return (Some (mkDetailData [] [] [] [] [])), Fixture.w0)
  /\ fst (parse_content (BeautifulSoup []) Fixture.w0) = Return None.
Proof.
  split.
  - apply (proj2 (proj2 (proj2
             (parse_content_never_raises
                (Fixture.page "/en/read/sports" []) Fixture.w0))) "sports");
      reflexivity.
  - destruct (proj1 (proj2 (proj2
                (parse_content_never_raises (BeautifulSoup []) Fixture.w0)))
                eq_refl) as (e & _ & H).
    exact H.
Defined.

End ExtractFacts.

(** ** Frames *)

Module FrameFacts.

Lemma Forall_zip_category (P : string -> Prop) c t d ds u :
  Forall P c -> Forall (fun r => P (row_category r)) (zip_rows c t d ds u).
Proof.
  intros Hc. revert t d ds u.
  induction Hc as [|c1 c Hc1 _ IH]; intros [|t1 t] [|d1 d] [|ds1 ds] [|u1 u];
    simpl; try constructor; auto.
Qed.

End FrameFacts.

(** ** Which container a field comes from *)

Module AlignmentFacts.
Import Bs4 Extract WellFormed.

Lemma append_urls_follow points acc us :
  append_urls points acc = Return us ->
  exists new, us = acc ++ new
              /\ Forall2 (fun p u => url_of p = Return u) points new.
Proof.
  revert acc. induction points as [|p points IH]; intros acc; simpl.
  - intros [= <-]. exists []. split; [now rewrite app_nil_r | constructor].
  - destruct (url_of p) as [u|] eqn:Eu; simpl; [|discriminate].
    intros H. destruct (IH _ H) as (new & -> & Hnew).
    exists (u :: new). split; [now rewrite <- app_assoc|].
    now constructor.
Qed.

(** The url list has one entry per article container, in document
    order: the link target of the container's anchor, or [None] when it
    has no anchor. *)
Lemma urls_follow_containers soup dd :
  parse_try soup = Return dd ->
  Forall2 (fun card u => url_of card = Return u)
          (select sel_start_point soup) (urls dd).
Proof.
  unfold parse_try, rbind. intros H.
  destruct (category_of soup); [|discriminate].
  destruct (append_urls _ _) as [us|] eqn:Eu; [|discriminate].
  injection H as <-. simpl.
  destruct (append_urls_follow _ _ _ Eu) as (new & -> & Hnew). exact Hnew.
Qed.

(** The handler that would store [np.nan] is never entered: looking up an
    anchor and its href raises no AttributeError. *)
Lemma url_of_never_nan point : url_of point <> Return PyNaN.
Proof.
  unfold url_of, getitem, rbind.
  destruct (select_one sel_url point) as [a|]; [|discriminate].
  destruct (get "href" a); discriminate.
Qed.

(** The scenario of two containers, the second without an anchor. *)
Example two_articles_urls :
  fst (parse_content Fixture.two_articles Fixture.w0)
  = Return (Some (mkDetailData ["sports"; "sports"] ["T1"; "T2"] ["d1"; "d2"]
                               ["D1"; "D2"] [PyString "https://x/1"; PyNone])).
Proof. vm_compute. reflexivity. Qed.

(** C1, at a page whose first article has a blank date: the three text
    lists are filtered one by one over the whole document, so the date
    list loses the blank entry and its first element is the date of the
    second container, next to the title, description and url of the
    first.  The lists are no longer of one length, and no frame can be
    built from them. *)
Example blank_date_shifts_dates :
  let soup := Fixture.blank_first_date in
  let dd := mkDetailData ["sports"; "sports"] ["T1"; "T2"] ["d2"]
                         ["D1"; "D2"] [PyString "https://x/1"; PyNone] in
  fst (parse_content soup Fixture.w0) = Return (Some dd)
  /\ map (texts_in sel_titles) (select sel_start_point soup) = [["T1"]; ["T2"]]
  /\ map (texts_in sel_dates) (select sel_start_point soup) = [[]; ["d2"]]
  /\ titles dd !! 0%nat = Some "T1"
  /\ date dd !! 0%nat = Some "d2"
  /\ DataFrame (Some dd)
     = Raise (mkExc ValueError "All arrays must be of the same length").
Proof. vm_compute. repeat split; reflexivity. Qed.

End AlignmentFacts.

(** ** fetch_content *)

Module FetchFacts.
Import Fetch.

Lemma live_stop tr : live (tr ++ [EvDriverStop]) = (false, false).
Proof. unfold live. now rewrite fold_left_app. Qed.

Lemma count_clicks_app tr1 tr2 :
  count_clicks (tr1 ++ tr2) = (count_clicks tr1 + count_clicks tr2)%nat.
Proof. unfold count_clicks. now rewrite List.filter_app, length_app. Qed.

Lemma count_clicks_loop j : count_clicks (loop_events j) = j.
Proof.
  induction j as [|j IH]; [reflexivity|].
  change (count_clicks (loop_events (S j))) with (S (count_clicks (loop_events j))).
  now rewrite IH.
Qed.

Lemma clicks_on_page_loop tr j :
  clicks_on_page (tr ++ loop_events j) = (clicks_on_page tr + j)%nat.
Proof.
  unfold clicks_on_page. rewrite fold_left_app.
  generalize (fold_left
                (fun n ev => match ev with
                             | EvNewPage => O
                             | EvClick _ => S n
                             | _ => n
                             end) tr O).
  induction j as [|j IH]; intros n; simpl; [lia|].
  rewrite IH. lia.
Qed.

Section Quiet.
Context {A B : Type}.

Lemma quiet_ret (a : A) : quiet (ret a).
Proof. intros w. exists O. simpl. repeat split; lia. Qed.

Lemma quiet_raise e : quiet (@raise A e).
Proof. intros w. exists O. simpl. repeat split; lia. Qed.

Lemma quiet_lift (r : Result A) : quiet (lift r).
Proof. intros w. exists O. simpl. repeat split; lia. Qed.

Lemma clicks_weaken (P Q : nat -> Prop) (m : M A) :
  (forall j, P j -> Q j) -> clicks P m -> clicks Q m.
Proof.
  intros HPQ Hm w. destruct (Hm w) as (j & H1 & H2 & H3).
  exists j. auto.
Qed.

(** Clicks made by the first part of a sequence only. *)
Lemma clicks_bind_first P (m : M A) (k : A -> M B) :
  clicks P m -> (forall a, quiet (k a)) -> clicks P (bind m k).
Proof.
  intros Hm Hk w. destruct (Hm w) as (j & H1 & H2 & H3).
  unfold bind. destruct (m w) as [[a|e] w1]; simpl in *.
  - destruct (Hk a w1) as (j' & K1 & K2 & ->).
    exists j. rewrite K1, K2, H1. repeat split; auto; lia.
  - exists j. auto.
Qed.

(** Clicks made by the second part only. *)
Lemma clicks_bind_second (P : nat -> Prop) (m : M A) (k : A -> M B) :
  P O -> quiet m -> (forall a, clicks P (k a)) -> clicks P (bind m k).
Proof.
  intros P0 Hm Hk w. destruct (Hm w) as (j & H1 & H2 & ->).
  unfold bind. destruct (m w) as [[a|e] w1]; simpl in *.
  - destruct (Hk a w1) as (j' & K1 & K2 & K3).
    exists j'. rewrite K1, K2, H1. repeat split; auto; lia.
  - exists O. auto.
Qed.

Lemma clicks_try P (m : M A) (h : Exception -> M A) :
  clicks P m -> (forall e, quiet (h e)) -> clicks P (try_except m h).
Proof.
  intros Hm Hh w. destruct (Hm w) as (j & H1 & H2 & H3).
  unfold try_except. destruct (m w) as [[a|e] w1]; simpl in *.
  - exists j. auto.
  - destruct (Hh e w1) as (j' & K1 & K2 & ->).
    exists j. rewrite K1, K2, H1. repeat split; auto; lia.
Qed.

Lemma clicks_with_exit P (m : M A) (exit : M unit) :
  clicks P m -> quiet exit -> clicks P (with_exit m exit).
Proof.
  intros Hm Hx w. destruct (Hm w) as (j & H1 & H2 & H3).
  unfold with_exit. destruct (m w) as [r w1]; simpl in *.
  destruct (Hx w1) as (j' & K1 & K2 & ->).
  destruct (exit w1) as [r' w2]; simpl in *.
  exists j. rewrite K1, K2, H1. repeat split; auto; lia.
Qed.

End Quiet.

Lemma quiet_bind {A B} (m : M A) (k : A -> M B) :
  quiet m -> (forall a, quiet (k a)) -> quiet (bind m k).
Proof. intros Hm Hk. now apply clicks_bind_first. Qed.

Lemma quiet_print o : quiet (print o).
Proof. intros w. exists O. simpl. repeat split; lia. Qed.

Lemma quiet_emit ev : is_click ev = false -> quiet (emit ev).
Proof.
  intros H w. exists O. simpl. rewrite count_clicks_app.
  unfold count_clicks at 2. simpl. rewrite H. simpl. repeat split; lia.
Qed.

Lemma quiet_call ev fault : is_click ev = false -> quiet (call ev fault).
Proof.
  intros H. destruct fault; simpl; [apply quiet_raise | now apply quiet_emit].
Qed.


Section WithEnv.
Variable env : Env.

Lemma click_loop_fault todo c w e :
  click env c = Some e -> click_loop env (S todo) c w = (Raise e, w).
Proof. intros H. simpl. unfold bind, call. now rewrite H. Qed.

Lemma click_loop_next todo c w :
  click env c = None ->
  click_loop env (S todo) c w
  = click_loop env todo (S c)
      (mkWorld
         (stdout w ++ [Line ("Click To 'Load More' " +:+ pretty (S c)
                             +:+ ": The element was clicked successfully.")])
         ((trace w ++ [EvClick load_more]) ++ [EvSleep 1])
         (table w)).
Proof. intros H. simpl. unfold bind, call. now rewrite H. Qed.

(** The loop makes [j] clicks, all answered, and then either is done or
    stops at the click that raised. *)
Lemma click_loop_run todo c w :
  exists j,
    trace (snd (click_loop env todo c w)) = trace w ++ loop_events j
    /\ table (snd (click_loop env todo c w)) = table w
    /\ (j <= todo)%nat
    /\ (forall i, (i < j)%nat -> click env (c + i) = None)
    /\ match fst (click_loop env todo c w) with
       | Return _ => j = todo
       | Raise e => (j < todo)%nat /\ click env (c + j) = Some e
       end.
Proof.
  revert c w. induction todo as [|todo IH]; intros c w.
  - exists O. simpl. rewrite app_nil_r. repeat split; intros; lia.
  - destruct (click env c) as [e|] eqn:Ec.
    + rewrite (click_loop_fault _ _ _ _ Ec).
      exists O. simpl. rewrite app_nil_r, Nat.add_0_r.
      repeat split; try (intros; lia). exact Ec.
    + rewrite (click_loop_next _ _ _ Ec).
      match goal with
      | |- context [click_loop env todo (S c) ?w1] =>
          destruct (IH (S c) w1) as (j & Htr & Htb & Hle & Hpre & Hres)
      end.
      exists (S j). rewrite Htr, Htb. simpl.
      repeat split.
      * now rewrite <- !app_assoc.
      * lia.
      * intros [|i] Hi; [now rewrite Nat.add_0_r|].
        rewrite <- Nat.add_succ_comm. apply Hpre. lia.
      * destruct (fst (click_loop env todo (S c) _)) as [[]|e].
        -- now subst.
        -- rewrite <- Nat.add_succ_comm. split; [lia | tauto].
Qed.

Lemma clicks_click_loop n :
  clicks (answered env n) (click_loop env (Z.to_nat n) O).
Proof.
  intros w.
  destruct (click_loop_run (Z.to_nat n) O w) as (j & Htr & Htb & Hle & Hpre & _).
  exists j. rewrite Htr, count_clicks_app, count_clicks_loop.
  repeat split; auto.
Qed.

Lemma quiet_time_taken : quiet (time_taken env).
Proof. intros w. exists O. simpl. repeat split; lia. Qed.

Lemma quiet_page_content url : quiet (page_content env url).
Proof.
  intros w. exists O. unfold page_content.
  destruct (content env url _); simpl; [|repeat split; lia].
  rewrite count_clicks_app. unfold count_clicks at 2. simpl.
  repeat split; lia.
Qed.

Lemma answered_O n : answered env n O.
Proof. split; [lia | intros i Hi; lia]. Qed.

Lemma clicks_click_phase n : clicks (answered env n) (click_phase env n).
Proof.
  unfold click_phase. apply clicks_try.
  - apply clicks_bind_first; [apply clicks_click_loop|].
    intros _. apply quiet_time_taken.
  - intros e. destruct (is_AttributeError e); [apply quiet_print|].
    apply quiet_bind; [apply quiet_print | intros _; apply quiet_raise].
Qed.

Lemma clicks_in_session url n : clicks (answered env n) (in_session env url n).
Proof.
  unfold in_session.
  repeat (apply clicks_bind_second;
          [apply answered_O | now apply quiet_call | intros _]).
  apply clicks_bind_first; [apply clicks_click_phase|]. intros _.
  apply quiet_bind; [apply quiet_page_content|]. intros html.
  apply quiet_bind; [now apply quiet_call | intros _; apply quiet_ret].
Qed.

Lemma clicks_fetch_content url n :
  clicks (answered env n) (fetch_content env url n).
Proof.
  unfold fetch_content. apply clicks_try.
  - apply clicks_bind_second;
      [apply answered_O | now apply quiet_call | intros _].
    apply clicks_with_exit; [apply clicks_in_session | now apply quiet_emit].
  - intros e. apply quiet_bind; [apply quiet_print|].
    intros _. apply quiet_raise.
Qed.

(** The number of load-more interactions of a call is at most the
    number asked for, and reaches it only when every click up to there
    was answered; the table is not touched. *)
Lemma interactions_bounded url n w :
  let w' := snd (fetch_content env url n w) in
  (interactions w w' <= Z.to_nat n)%nat
  /\ (interactions w w' = Z.to_nat n ->
      forall k, (k < Z.to_nat n)%nat -> click env k = None)
  /\ table w' = table w.
Proof.
  cbv zeta. unfold interactions.
  destruct (clicks_fetch_content url n w) as (j & -> & Htb & Hle & Hpre).
  replace (count_clicks (trace w) + j - count_clicks (trace w))%nat
    with j by lia.
  repeat split; auto.
  intros ->. exact Hpre.
Qed.

(** Leaving the [async with] block stops the driver, so the session is
    closed however the block was left. *)
Lemma fetch_content_trace url n w :
  trace (snd (fetch_content env url n w)) = trace w
  \/ exists tr, trace (snd (fetch_content env url n w)) = tr ++ [EvDriverStop].
Proof.
  unfold fetch_content, try_except, bind, call.
  destruct (driver_start env) as [e|]; simpl; [now left|].
  right. unfold with_exit.
  destruct (in_session env url n _) as [[html|e] w1]; simpl; eauto.
Qed.

Lemma click_loop_stops k : forall todo c w e,
  (k < todo)%nat ->
  (forall i, (i < k)%nat -> click env (c + i) = None) ->
  click env (c + k) = Some e ->
  exists out,
    click_loop env todo c w
    = (Raise e, mkWorld out (trace w ++ loop_events k) (table w)).
Proof.
  induction k as [|k IH]; intros [|todo] c w e Hlt Hpre Hk; try lia.
  - rewrite Nat.add_0_r in Hk. rewrite (click_loop_fault _ _ _ _ Hk).
    exists (stdout w). simpl. rewrite app_nil_r. now destruct w.
  - assert (H0 : click env c = None).
    { rewrite <- (Nat.add_0_r c). apply Hpre. lia. }
    rewrite (click_loop_next _ _ _ H0).
    edestruct (IH todo (S c)) as (out & ->).
    + lia.
    + intros i Hi. rewrite Nat.add_succ_comm. apply Hpre. lia.
    + rewrite Nat.add_succ_comm. exact Hk.
    + exists out. simpl. now rewrite <- !app_assoc.
Qed.

Lemma click_loop_completes todo : forall c w,
  (forall i, (i < todo)%nat -> click env (c + i) = None) ->
  exists out,
    click_loop env todo c w
    = (Return tt, mkWorld out (trace w ++ loop_events todo) (table w)).
Proof.
  induction todo as [|todo IH]; intros c w Hpre.
  - exists (stdout w). simpl. rewrite app_nil_r. now destruct w.
  - assert (H0 : click env c = None).
    { rewrite <- (Nat.add_0_r c). apply Hpre. lia. }
    rewrite (click_loop_next _ _ _ H0).
    edestruct (IH (S c)) as (out & ->).
    + intros i Hi. rewrite Nat.add_succ_comm. apply Hpre. lia.
    + exists out. simpl. now rewrite <- !app_assoc.
Qed.

Lemma clicks_on_page_opened w url j : clicks_on_page (opened w url j) = j.
Proof.
  unfold opened. rewrite clicks_on_page_loop.
  unfold clicks_on_page. now rewrite !fold_left_app.
Qed.

Lemma count_clicks_opened w url j tail :
  Forall (fun ev => is_click ev = false) tail ->
  (count_clicks (opened w url j ++ tail) - count_clicks (trace w))%nat = j.
Proof.
  intros Htail. unfold opened.
  rewrite !count_clicks_app, count_clicks_loop.
  assert (count_clicks tail = O) as ->.
  { induction Htail as [|ev tail Hev _ IH]; [reflexivity|].
    unfold count_clicks in *. simpl. now rewrite Hev. }
  unfold count_clicks at 2 3 4 5 6. simpl. lia.
Qed.

(** A click that raises anything but an AttributeError fails the call:
    the exception goes through both handlers, no document is returned,
    and the browser is never asked to close (the driver stops). *)
Lemma click_fault_fails url n k e w :
  navigates env url ->
  (k < Z.to_nat n)%nat ->
  (forall i, (i < k)%nat -> click env i = None) ->
  click env k = Some e ->
  is_AttributeError e = false ->
  exists out,
    fetch_content env url n w
    = (Raise e, mkWorld out (opened w url k ++ [EvDriverStop]) (table w)).
Proof.
  intros (H1 & H2 & H3 & H4 & H5) Hk Hpre Hek Hcls.
  unfold fetch_content, in_session, click_phase, try_except, with_exit,
    bind, call.
  rewrite H1, H2, H3, H4, H5. simpl.
  match goal with
  | |- context [click_loop env _ O ?w1] =>
      destruct (click_loop_stops k (Z.to_nat n) O w1 e Hk Hpre Hek)
        as (out & ->)
  end.
  rewrite Hcls. simpl. eexists. reflexivity.
Qed.

(** A click that raises an AttributeError ends the loop, and the call
    goes on to capture the document. *)
Lemma attribute_error_ends_loop url n k e html w :
  navigates env url ->
  (k < Z.to_nat n)%nat ->
  (forall i, (i < k)%nat -> click env i = None) ->
  click env k = Some e ->
  is_AttributeError e = true ->
  content env url k = Return html ->
  browser_close env = None ->
  exists out,
    fetch_content env url n w
    = (Return html,
       mkWorld out
         (opened w url k ++ [EvContent; EvBrowserClose; EvDriverStop])
         (table w)).
Proof.
  intros (H1 & H2 & H3 & H4 & H5) Hk Hpre Hek Hcls Hc Hb.
  unfold fetch_content, in_session, click_phase, try_except, with_exit,
    bind, call.
  rewrite H1, H2, H3, H4, H5, Hb. simpl.
  match goal with
  | |- context [click_loop env _ O ?w1] =>
      destruct (click_loop_stops k (Z.to_nat n) O w1 e Hk Hpre Hek)
        as (out & ->)
  end.
  rewrite Hcls. simpl. unfold page_content. simpl.
  fold (opened w url k). rewrite clicks_on_page_opened, Hc. simpl.
  eexists. rewrite <- !app_assoc. reflexivity.
Qed.

(** When every click is answered the call makes all of them and
    returns the document. *)
Lemma all_clicks_answered url n html w :
  navigates env url ->
  (forall i, (i < Z.to_nat n)%nat -> click env i = None) ->
  content env url (Z.to_nat n) = Return html ->
  browser_close env = None ->
  exists out,
    fetch_content env url n w
    = (Return html,
       mkWorld out
         (opened w url (Z.to_nat n)
          ++ [EvContent; EvBrowserClose; EvDriverStop])
         (table w)).
Proof.
  intros (H1 & H2 & H3 & H4 & H5) Hpre Hc Hb.
  unfold fetch_content, in_session, click_phase, try_except, with_exit,
    bind, call.
  rewrite H1, H2, H3, H4, H5, Hb. simpl.
  match goal with
  | |- context [click_loop env _ O ?w1] =>
      destruct (click_loop_completes (Z.to_nat n) O w1 Hpre) as (out & ->)
  end.
  simpl. unfold page_content. simpl.
  fold (opened w url (Z.to_nat n)). rewrite clicks_on_page_opened, Hc. simpl.
  eexists. rewrite <- !app_assoc. reflexivity.
Qed.

End WithEnv.

(** C7: however fetch_content is left (all clicks made, the loop ended
    early, or an exception from navigation, a click, the capture or the
    close), no driver and no browser is running when it returns or
    raises. *)
Theorem session_always_closed env url n w :
  session_closed w -> session_closed (snd (fetch_content env url n w)).
Proof.
  unfold session_closed. intros Hw.
  destruct (fetch_content_trace env url n w) as [-> | (tr & ->)];
    [exact Hw | apply live_stop].
Qed.

Lemma session_always_closed_witness :
  session_closed
    (snd (fetch_content
            (Fixture.browser "sports" Fixture.two_articles
               (Fixture.gone_at 2 Fixture.click_timeout))
            Fixture.sports_url 10 Fixture.w0)).
Proof.
  apply (session_always_closed _ Fixture.sports_url 10 Fixture.w0).
  reflexivity.
Defined.

(** C4, at a page whose control is gone after two clicks: the third
    page.click raises a TimeoutError, which the AttributeError handler of
    the loop does not take; the exception leaves fetch_content through
    both re-raising handlers after two interactions, and no document is
    returned. *)
Example absent_control_fails :
  let env := Fixture.browser "sports" Fixture.two_articles
               (Fixture.gone_at 2 Fixture.click_timeout) in
  let out := fetch_content env Fixture.sports_url 10 Fixture.w0 in
  fst out = Raise Fixture.click_timeout
  /\ interactions Fixture.w0 (snd out) = 2%nat
  /\ trace (snd out)
     = [EvDriverStart; EvLaunch; EvNewPage; EvGoto Fixture.sports_url;
        EvWaitFor load_more; EvClick load_more; EvSleep 1;
        EvClick load_more; EvSleep 1; EvDriverStop].
Proof. vm_compute. repeat split; reflexivity. Qed.

(** With an AttributeError in place of the TimeoutError the same page is
    captured after two interactions. *)
Example attribute_error_returns :
  let env := Fixture.browser "sports" Fixture.two_articles
               (Fixture.gone_at 2 (mkExc AttributeError "click")) in
  let out := fetch_content env Fixture.sports_url 10 Fixture.w0 in
  fst out = Return Fixture.two_articles
  /\ interactions Fixture.w0 (snd out) = 2%nat.
Proof. vm_compute. repeat split; reflexivity. Qed.

End FetchFacts.

(** ** DatabaseManagerSettings *)

Module DbFacts.
Import Db.

Lemma flush_rows rows t : map snd (flush rows t) = map snd t ++ rows.
Proof.
  revert t. induction rows as [|r rows IH]; intros t; simpl.
  - now rewrite app_nil_r.
  - rewrite IH, map_app, <- app_assoc. reflexivity.
Qed.

Lemma add_rows_run df s w :
  add_rows df s w
  = (Return (mkSession (pending s ++ df)),
     mkWorld (stdout w) (trace w ++ map EvAdd df) (table w)).
Proof.
  revert s w. induction df as [|r df IH]; intros [p] [o tr tb]; simpl.
  - now rewrite !app_nil_r.
  - unfold bind, session_add. simpl. rewrite IH. simpl.
    now rewrite <- !app_assoc.
Qed.

(** insert_data adds every row of the frame and commits once: the table
    grows by the pending rows and the frame, in order. *)
Lemma insert_data_run df s w :
  insert_data None df s w
  = (Return (mkSession []),
     mkWorld (stdout w) ((trace w ++ map EvAdd df) ++ [EvCommit])
             (flush (pending s ++ df) (table w))).
Proof. unfold insert_data, bind. now rewrite add_rows_run. Qed.

(** A failed commit stores nothing. *)
Lemma insert_data_fault e df s w :
  fst (insert_data (Some e) df s w) = Raise e
  /\ table (snd (insert_data (Some e) df s w)) = table w.
Proof. unfold insert_data, bind. now rewrite add_rows_run. Qed.

Lemma insert_then_read df s w :
  fst (read_data None (snd (insert_data None df s w)))
  = Return (flush (pending s ++ df) (table w)).
Proof. now rewrite insert_data_run. Qed.

(** C6, as the claim has it, fails on a table that is not empty: the rows
    of the earlier run are read back as well. *)
Lemma rerun_reads_old_rows :
  let w' := snd (insert_data None [Fixture.row2] (mkSession []) Fixture.w_rerun) in
  fst (read_data None w')
  = Return [(1%Z, Fixture.row1); (2%Z, Fixture.row2)]
  /\ ~ set_equiv (map snd [(1%Z, Fixture.row1); (2%Z, Fixture.row2)])
                 [Fixture.row2].
Proof.
  split; [reflexivity|].
  intros H. specialize (H Fixture.row1). simpl in H.
  assert (Hin : Fixture.row1 ∈ [Fixture.row2]).
  { apply H. constructor. }
  apply list_elem_of_singleton in Hin. discriminate Hin.
Qed.

(** C6: on a table that is empty, with nothing pending, writing records
    with insert_data and reading everything back with read_data gives the
    records written, in order, once the id column is dropped: the same set
    of rows.  (On any table the read gives the rows stored before followed
    by those written, see [insert_appends].) *)
Theorem insert_read_round_trip df w :
  Forall is_record df ->
  table w = [] ->
  exists w' rows,
    insert_data None df (mkSession []) w = (Return (mkSession []), w')
    /\ read_data None w' = (Return rows, w')
    /\ map snd rows = df
    /\ set_equiv (map snd rows) df.
Proof.
  intros _ Hempty. rewrite insert_data_run. simpl pending. simpl app at 3.
  eexists. eexists. split; [reflexivity|]. split; [reflexivity|].
  simpl table. rewrite flush_rows, Hempty. simpl.
  split; [reflexivity | intros r; reflexivity].
Qed.

Lemma insert_read_round_trip_witness :
  exists w' rows,
    insert_data None [Fixture.row1; Fixture.row2] (mkSession []) Fixture.w0
    = (Return (mkSession []), w')
    /\ read_data None w' = (Return rows, w')
    /\ map snd rows = [Fixture.row1; Fixture.row2]
    /\ set_equiv (map snd rows) [Fixture.row1; Fixture.row2].
Proof.
  apply (insert_read_round_trip [Fixture.row1; Fixture.row2] Fixture.w0).
  - repeat constructor; discriminate.
  - reflexivity.
Defined.

Lemma insert_appends df w :
  map snd (table (snd (insert_data None df (mkSession []) w)))
  = map snd (table w) ++ df.
Proof. rewrite insert_data_run. simpl. apply flush_rows. Qed.

End DbFacts.

(** ** main *)

Module MainFacts.
Import Main.

Lemma main_prompted env w :
  main env w
  = match category_urls !! stdin env with
    | None => (Raise (mkExc KeyError (stdin env)), prompted w)
    | Some url => harvest env (stdin env) url (prompted w)
    end.
Proof.
  unfold main, bind, print. simpl.
  destruct (category_urls !! stdin env); reflexivity.
Qed.

(** C8: a category that is not a key of category_urls makes main raise a
    KeyError for that key right after the prompt: nothing is added to
    the trace, so no driver is started, no browser launched and no page
    visited, and the table is as it was. *)
Theorem unknown_category_fails env w :
  category_urls !! stdin env = None ->
  main env w = (Raise (mkExc KeyError (stdin env)), prompted w)
  /\ trace (snd (main env w)) = trace w
  /\ table (snd (main env w)) = table w.
Proof. intros H. rewrite main_prompted, H. auto. Qed.

Lemma unknown_category_fails_witness :
  let env := Fixture.browser "cricket" Fixture.two_articles Fixture.always_there in
  main env Fixture.w0
  = (Raise (mkExc KeyError "cricket"), prompted Fixture.w0)
  /\ trace (snd (main env Fixture.w0)) = []
  /\ table (snd (main env Fixture.w0)) = [].
Proof.
  apply (unknown_category_fails
           (Fixture.browser "cricket" Fixture.two_articles Fixture.always_there)
           Fixture.w0).
  vm_compute. reflexivity.
Defined.

(** What is left of main once the frame is there. *)
Lemma store_empty_frame env path1 path2 w :
  table
    (snd ((print (FrameDump []) ;;
           call (EvToCsv path1 []) (to_csv env) ;;
           call (EvToJson path2 []) (to_json env) ;;
           db <- Db.init (connect env) ;;
           db' <- Db.insert_data (commit env) [] db ;;
           Db.close_connection db')%M w))
  = table w.
Proof.
  unfold bind, call, Db.init, Db.insert_data, Db.session_commit, bind, call.
  simpl.
  destruct (to_csv env); simpl; [reflexivity|].
  destruct (to_json env); simpl; [reflexivity|].
  destruct (connect env); simpl; [reflexivity|].
  destruct (commit env); simpl; reflexivity.
Qed.

(** C5, as the claim has it, fails: a run whose extraction returns
    [None] is not cut short before the write step.  On a page without a
    category marker main still exports the frame, opens the session,
    calls insert_data and commits. *)
Lemma null_extraction_reaches_commit :
  let env := Fixture.browser "sports" (Bs4.BeautifulSoup []) Fixture.always_there in
  fst (Extract.parse_content (Bs4.BeautifulSoup []) Fixture.w0) = Return None
  /\ fst (main env Fixture.w0) = Return tt
  /\ reaches_commit (trace (snd (main env Fixture.w0))) = true
  /\ drop 28 (trace (snd (main env Fixture.w0)))
     = [EvToCsv (export_path "sports" "2024-01-01_00-00" ".csv") [];
        EvToJson (export_path "sports" "2024-01-01_00-00" ".json") [];
        EvConnect; EvCommit; EvSessionClose].
Proof. vm_compute. repeat split; reflexivity. Qed.

(** C5: when extraction returns [None] or the dict of empty lists, the
    run stores no row: insert_data is still called, on a frame without
    rows, so nothing is added and the table is left as it was. *)
Theorem no_rows_without_records env w url html w1 detail w2 :
  category_urls !! stdin env = Some url ->
  Fetch.fetch_content env url 10 (prompted w) = (Return html, w1) ->
  Extract.parse_content html w1 = (Return detail, w2) ->
  detail = None \/ detail = Some no_records ->
  DataFrame detail = Return []
  /\ table (snd (main env w)) = table w.
Proof.
  intros Hurl Hfetch Hparse Hdetail.
  assert (Hdf : DataFrame detail = Return []).
  { destruct Hdetail as [-> | ->]; reflexivity. }
  split; [exact Hdf|].
  rewrite main_prompted, Hurl. unfold harvest.
  rewrite (bind_return _ _ _ _ _ Hfetch), (bind_return _ _ _ _ _ Hparse).
  rewrite Hdf. unfold bind at 1. unfold lift.
  rewrite store_empty_frame.
  assert (H2 : table w2 = table w1).
  { destruct (ExtractFacts.parse_content_world html w1)
      as [(dd & Hdd) | (line & Hl)].
    - rewrite Hdd in Hparse. now inversion Hparse.
    - rewrite Hl in Hparse. now inversion Hparse. }
  rewrite H2.
  pose proof (FetchFacts.interactions_bounded env url 10 (prompted w)) as Hb.
  rewrite Hfetch in Hb. simpl in Hb. tauto.
Qed.

Lemma no_rows_without_records_witness :
  let env := Fixture.browser "sports" (Bs4.BeautifulSoup []) Fixture.always_there in
  DataFrame None = Return []
  /\ table (snd (main env Fixture.w0)) = table Fixture.w0.
Proof.
  apply (no_rows_without_records
           (Fixture.browser "sports" (Bs4.BeautifulSoup []) Fixture.always_there)
           Fixture.w0 Fixture.sports_url (Bs4.BeautifulSoup [])
           (snd (Fetch.fetch_content
                   (Fixture.browser "sports" (Bs4.BeautifulSoup [])
                      Fixture.always_there)
                   Fixture.sports_url 10 (prompted Fixture.w0)))
           None
           (snd (Extract.parse_content (Bs4.BeautifulSoup [])
                   (snd (Fetch.fetch_content
                           (Fixture.browser "sports" (Bs4.BeautifulSoup [])
                              Fixture.always_there)
                           Fixture.sports_url 10 (prompted Fixture.w0)))))).
  - vm_compute. reflexivity.
  - vm_compute. reflexivity.
  - vm_compute. reflexivity.
  - left. reflexivity.
Defined.

End MainFacts.

(** ** Pages made of complete articles *)

Module FixtureFacts.
Import Bs4 Extract WellFormed Fixture.

Lemma append_empty (s : string) : s +:+ "" = s.
Proof.
  induction s as [|c s IH]; [reflexivity|].
  change (String c s +:+ "") with (String c (s +:+ "")). now rewrite IH.
Qed.

Lemma texts_app l1 l2 : texts (l1 ++ l2) = texts l1 ++ texts l2.
Proof. unfold texts. now rewrite map_app, List.filter_app. Qed.

Lemma texts_flat_map {X} (f : X -> list Element) (l : list X) :
  texts (flat_map f l) = flat_map (fun x => texts (f x)) l.
Proof.
  induction l as [|x l IH]; simpl; [reflexivity|].
  now rewrite texts_app, IH.
Qed.

Lemma filter_flat_map {X Y} (p : Y -> bool) (f : X -> list Y) (l : list X) :
  List.filter p (flat_map f l) = flat_map (fun x => List.filter p (f x)) l.
Proof.
  induction l as [|x l IH]; simpl; [reflexivity|].
  now rewrite List.filter_app, IH.
Qed.

(** The elements below the body that belong to the cards. *)
Lemma descendants_cards arts :
  (fix go (l : list PageElement) : list Element :=
     match l with
     | [] => []
     | c :: l' =>
         mkElement card_parents c :: descendants_of card_parents c ++ go l'
     end) (map card arts)
  = flat_map (fun a => card_element a :: descendants (card_element a)) arts.
Proof.
  induction arts as [|a arts IH]; simpl; [reflexivity|].
  f_equal. unfold descendants at 1. simpl parents. simpl self.
  f_equal. exact IH.
Qed.

Lemma descendants_page href arts :
  descendants (page href arts)
  = page_top href arts
    ++ flat_map (fun a => card_element a :: descendants (card_element a)) arts.
Proof.
  rewrite <- descendants_cards.
  unfold page, BeautifulSoup, descendants. simpl parents. simpl self.
  cbn [descendants_of]. rewrite !app_nil_r.
  reflexivity.
Qed.

Lemma select_page sel href arts :
  select sel (page href arts)
  = List.filter (matches sel) (page_top href arts)
    ++ flat_map (fun a => List.filter (matches sel)
                            (card_element a :: descendants (card_element a))) arts.
Proof.
  unfold select. now rewrite descendants_page, List.filter_app, filter_flat_map.
Qed.

Lemma shown_strip o :
  shown o = true ->
  exists s c r, o = Some s /\ PyStr.strip s = String c r.
Proof.
  destruct o as [s|]; [|discriminate]. simpl. intros H.
  destruct (PyStrFacts.strip_visible s H) as (c & r & E). eauto.
Qed.

(** What the selections find in the card of a complete article, taken
    from the page and taken from the card itself. *)
Lemma card_parts a :
  complete a = true ->
  let els := card_element a :: descendants (card_element a) in
  texts (List.filter (matches sel_titles) els) = [field (a_title a)]
  /\ texts (List.filter (matches sel_dates) els) = [field (a_date a)]
  /\ texts (List.filter (matches sel_descriptions) els)
     = [field (a_description a)]
  /\ List.filter (matches sel_start_point) els = [card_element a]
  /\ texts_in sel_titles (card_element a) = [field (a_title a)]
  /\ texts_in sel_dates (card_element a) = [field (a_date a)]
  /\ texts_in sel_descriptions (card_element a) = [field (a_description a)]
  /\ url_of (card_element a) = Return (link a).
Proof.
  unfold complete. rewrite !andb_true_iff. intros [[Ht Hd] Hds].
  destruct (shown_strip _ Ht) as (t & ct & rt & Et & St).
  destruct (shown_strip _ Hd) as (d & cd & rd & Ed & Sd).
  destruct (shown_strip _ Hds) as (ds & cds & rds & Eds & Sds).
  destruct a as [ot od ods [u|]]; simpl in Et, Ed, Eds; subst ot od ods;
    clear Ht Hd Hds; unfold texts_in, select;
    cbn -[PyStr.strip]; rewrite St, Sd, Sds; cbn -[PyStr.strip];
    rewrite !append_empty; repeat split; reflexivity.
Qed.

Lemma page_top_parts href arts :
  List.filter (matches sel_titles) (page_top href arts) = []
  /\ List.filter (matches sel_dates) (page_top href arts) = []
  /\ List.filter (matches sel_descriptions) (page_top href arts) = []
  /\ List.filter (matches sel_start_point) (page_top href arts) = [].
Proof. repeat split; reflexivity. Qed.

Lemma category_of_page href arts :
  category_of (page href arts) = PyStr.last_item (PyStr.split "/" href).
Proof.
  unfold category_of, select_one. rewrite select_page.
  cbn [page_top List.filter matches self parents rev app sel_category
       match_head match_ancestors c_name c_class h_name h_class has_class
       existsb String.eqb Ascii.eqb Bool.eqb andb orb head card_parents
       marker].
  unfold get. simpl self. cbv beta iota. now rewrite lookup_singleton_eq.
Qed.

Lemma flat_map_singletons {X Y} (f : X -> list Y) (g : X -> Y) (l : list X) :
  Forall (fun x => f x = [g x]) l -> flat_map f l = map g l.
Proof.
  induction 1 as [|x l Hx _ IH]; simpl; [reflexivity|]. now rewrite Hx, IH.
Qed.

Lemma append_urls_map (g : Article -> PyVal) arts acc :
  Forall (fun a => url_of (card_element a) = Return (g a)) arts ->
  append_urls (map card_element arts) acc = Return (acc ++ map g arts).
Proof.
  intros H. revert acc. induction H as [|a arts Ha _ IH]; intros acc; simpl.
  - now rewrite app_nil_r.
  - rewrite Ha. simpl. rewrite IH, <- app_assoc. reflexivity.
Qed.

Section CompletePage.
Variable href : string.
Variable arts : list Article.
Hypothesis all_complete : Forall (fun a => complete a = true) arts.

Lemma page_texts sel (get_field : Article -> option string) :
  List.filter (matches sel) (page_top href arts) = [] ->
  (forall a, complete a = true ->
             texts (List.filter (matches sel)
                      (card_element a :: descendants (card_element a)))
             = [field (get_field a)]) ->
  texts (select sel (page href arts)) = map (fun a => field (get_field a)) arts.
Proof.
  intros Htop Hcard. rewrite select_page, Htop. simpl app.
  rewrite texts_flat_map. apply flat_map_singletons.
  eapply Forall_impl; [exact all_complete|]. exact Hcard.
Qed.

Lemma page_cards : select sel_start_point (page href arts) = map card_element arts.
Proof.
  rewrite select_page.
  destruct (page_top_parts href arts) as (_ & _ & _ & ->). simpl app.
  apply flat_map_singletons.
  eapply Forall_impl; [exact all_complete|]. intros a Ha.
  now destruct (card_parts a Ha) as (_ & _ & _ & H & _).
Qed.

(** On a page of complete articles parse_content reads every article
    back from its own card: record [i] has the title, date and
    description of article [i], stripped, and its link or [None]. *)
Lemma page_extracts :
  exists c,
    PyStr.last_item (PyStr.split "/" href) = Return c
    /\ parse_try (page href arts)
       = Return (mkDetailData
                   (replicate (length arts) c)
                   (map (fun a => field (a_title a)) arts)
                   (map (fun a => field (a_date a)) arts)
                   (map (fun a => field (a_description a)) arts)
                   (map link arts)).
Proof.
  destruct (PyStrFacts.last_item_split "/" href) as [c Hc].
  exists c. split; [exact Hc|].
  destruct (page_top_parts href arts) as (T1 & T2 & T3 & _).
  unfold parse_try. rewrite category_of_page, Hc. simpl rbind.
  rewrite page_cards.
  rewrite (append_urls_map link).
  2:{ eapply Forall_impl; [exact all_complete|]. intros a Ha.
      now destruct (card_parts a Ha) as (_ & _ & _ & _ & _ & _ & _ & H). }
  simpl rbind.
  rewrite (page_texts sel_titles a_title T1),
          (page_texts sel_dates a_date T2),
          (page_texts sel_descriptions a_description T3).
  - now rewrite ExtractFacts.append_category_replicate, length_map.
  - intros a Ha. now destruct (card_parts a Ha) as (_ & _ & H & _).
  - intros a Ha. now destruct (card_parts a Ha) as (_ & H & _).
  - intros a Ha. now destruct (card_parts a Ha) as (H & _).
Qed.

End CompletePage.

End FixtureFacts.

(** * Further properties *)

(** ** Trimmed text and path segments *)

Module SegmentFacts.
Import PyStr Segments.

Lemma split_app sep a b :
  split sep (a +:+ String sep b) = split sep a ++ split sep b.
Proof.
  induction a as [|c a IH].
  - change ("" +:+ String sep b) with (String sep b).
    simpl split. now rewrite Ascii.eqb_refl.
  - change (String c a +:+ String sep b) with (String c (a +:+ String sep b)).
    simpl split. rewrite IH.
    destruct (Ascii.eqb c sep); [reflexivity|].
    pose proof (PyStrFacts.split_nonempty sep a) as Hne.
    destruct (split sep a) as [|w0 ws0]; [congruence | reflexivity].
Qed.

Lemma split_free sep s : free_of sep s = true -> split sep s = [s].
Proof.
  induction s as [|c s IH]; simpl; [reflexivity|].
  rewrite andb_true_iff, negb_true_iff. intros [Hc Hs].
  now rewrite Hc, (IH Hs).
Qed.

(** The item after the last separator. *)
Lemma last_segment sep prefix seg :
  free_of sep seg = true ->
  last_item (split sep (prefix +:+ String sep seg)) = Return seg.
Proof.
  intros Hfree. unfold last_item.
  rewrite split_app, (split_free _ _ Hfree), last_snoc. reflexivity.
Qed.

(** Every string has a part after its last separator, and that part is
    what [split] puts last. *)
Lemma after_last_exists sep s : exists c, after_last sep s c.
Proof.
  induction s as [|a s (c & Hfree & [Hs | (prefix & Hs)])].
  - exists "". split; [reflexivity | now left].
  - destruct (Ascii.eqb a sep) eqn:E.
    + apply Ascii.eqb_eq in E. subst a s. exists c. split; [exact Hfree|].
      right. now exists "".
    + exists (String a c). subst s. split; [|now left].
      simpl. now rewrite E, Hfree.
  - exists c. split; [exact Hfree|]. right. exists (String a prefix).
    now rewrite Hs.
Qed.

Lemma after_last_item sep s c :
  after_last sep s c -> last_item (split sep s) = Return c.
Proof.
  intros (Hfree & [-> | (prefix & ->)]).
  - unfold last_item. now rewrite (split_free _ _ Hfree).
  - now apply last_segment.
Qed.

Lemma last_item_after sep s c :
  last_item (split sep s) = Return c -> after_last sep s c.
Proof.
  intros H. destruct (after_last_exists sep s) as (c' & Hc').
  rewrite (after_last_item _ _ _ Hc') in H. now injection H as <-.
Qed.

(** [strip] takes white space off the two ends and leaves none there. *)
Lemma strip_trims s : trims s (strip s).
Proof.
  destruct (PyStrFacts.lstrip_split s) as (l & Hl & Hls).
  destruct (PyStrFacts.rstrip_split (lstrip s)) as (r & Hr & Hrs).
  fold (strip s) in Hr. exists l, r.
  split; [now rewrite <- Hr|]. split; [exact Hls|]. split; [exact Hrs|].
  split; [apply PyStrFacts.strip_starts|].
  intros x e. apply (PyStrFacts.rstrip_ends (lstrip s)).
Qed.

End SegmentFacts.

(** ** Encoded text *)

Module EncodingFacts.
Import PyStr PyStrFacts Segments.

Ltac props :=
  repeat match goal with
         | H : _ && _ = true |- _ => apply andb_true_iff in H; destruct H
         | H : _ || _ = true |- _ => apply orb_true_iff in H; destruct H
         | H : _ && _ = false |- _ => apply andb_false_iff in H; destruct H
         | H : _ || _ = false |- _ => apply orb_false_iff in H; destruct H
         | H : (_ <=? _)%N = true |- _ => apply N.leb_le in H
         | H : (_ <=? _)%N = false |- _ => apply N.leb_gt in H
         | H : (_ <? _)%N = true |- _ => apply N.ltb_lt in H
         | H : (_ <? _)%N = false |- _ => apply N.ltb_ge in H
         | H : (_ =? _)%N = true |- _ => apply N.eqb_eq in H
         | H : (_ =? _)%N = false |- _ => apply N.eqb_neq in H
         end.

Lemma ascii_space_low c : ascii_space c = true -> (byte c < 128)%N.
Proof. unfold ascii_space. intros H. props; lia. Qed.

Lemma space2_lead c d : space2 c d = true -> byte c = 194%N /\ continues d = true.
Proof.
  unfold space2, continues. intros H. props; subst; split; try assumption;
    match goal with H : byte d = _ |- _ => rewrite H end; reflexivity.
Qed.

Lemma space3_lead c d e :
  space3 c d e = true ->
  (225 <= byte c <= 227)%N /\ continues d = true /\ continues e = true.
Proof.
  unfold space3, continues. intros H. props;
    (split; [lia|]); split; apply andb_true_iff; split;
      try (apply N.leb_le; lia); try (apply N.ltb_lt; lia).
Qed.

Lemma followers_low c : (byte c < 128)%N -> followers c = Some 0%nat.
Proof. intros H. unfold followers. apply N.ltb_lt in H. now rewrite H. Qed.

Lemma followers_cases c k :
  followers c = Some k ->
  continues c = false
  /\ match k with
     | 0%nat => (byte c < 128)%N
     | 1%nat => (194 <= byte c < 224)%N
     | _ => (224 <= byte c)%N
     end.
Proof.
  unfold followers, continues.
  destruct (byte c <? 128)%N eqn:E1; [intros [= <-]; props; split; [|lia]|].
  { apply andb_false_iff. left. apply N.leb_gt. lia. }
  destruct (byte c <? 194)%N eqn:E2; [discriminate|].
  assert (Hc : (128 <=? byte c)%N && (byte c <? 192)%N = false).
  { props. apply andb_false_iff. right. apply N.ltb_ge. lia. }
  destruct (byte c <? 224)%N eqn:E3; [intros [= <-]; split; [exact Hc | props; lia]|].
  destruct (byte c <? 240)%N eqn:E4; [intros [= <-]; split; [exact Hc | props; lia]|].
  destruct (byte c <? 245)%N eqn:E5; [intros [= <-]; split; [exact Hc | props; lia]|].
  discriminate.
Qed.

Lemma encoded_lead c r : encoded 0 (String c r) = true -> continues c = false.
Proof.
  simpl. destruct (followers c) as [k|] eqn:E; [|discriminate].
  intros _. now destruct (followers_cases _ _ E).
Qed.

(** Taking a white-space character off the front leaves an encoded text. *)
Lemma space_prefix_encoded s r :
  space_prefix s = Some r -> encoded 0 s = true -> encoded 0 r = true.
Proof.
  destruct s as [|c s]; [discriminate|]. cbn [space_prefix].
  destruct (ascii_space c) eqn:E1.
  { intros [= <-]. cbn [encoded].
    now rewrite (followers_low _ (ascii_space_low _ E1)). }
  destruct s as [|d s]; [discriminate|].
  destruct (space2 c d) eqn:E2.
  { intros [= <-]. destruct (space2_lead _ _ E2) as [Hc Hd].
    cbn [encoded]. unfold followers. rewrite Hc. cbn. rewrite Hd. now cbn. }
  destruct s as [|e s]; [discriminate|].
  destruct (space3 c d e) eqn:E3; [|discriminate].
  intros [= <-]. destruct (space3_lead _ _ _ E3) as (Hc & Hd & He).
  cbn [encoded].
  assert (F : followers c = Some 2%nat).
  { unfold followers.
    assert (H1 : (byte c <? 128)%N = false) by (apply N.ltb_ge; lia).
    assert (H2 : (byte c <? 194)%N = false) by (apply N.ltb_ge; lia).
    assert (H3 : (byte c <? 224)%N = false) by (apply N.ltb_ge; lia).
    assert (H4 : (byte c <? 240)%N = true) by (apply N.ltb_lt; lia).
    now rewrite H1, H2, H3, H4. }
  rewrite F. cbn [encoded]. rewrite Hd, He. now cbn.
Qed.

Lemma lstrip_encoded s : encoded 0 s = true -> encoded 0 (lstrip s) = true.
Proof.
  induction s as [s IH] using by_length. intros Hs.
  rewrite lstrip_step. destruct (space_prefix s) as [r|] eqn:E; [|exact Hs].
  apply IH; [now apply space_prefix_shorter|].
  exact (space_prefix_encoded _ _ E Hs).
Qed.

(** White space starts with the first byte of a character. *)
Lemma space_prefix_lead c s r :
  space_prefix (String c s) = Some r -> continues c = false.
Proof.
  cbn [space_prefix]. destruct (ascii_space c) eqn:E1.
  { intros _. pose proof (ascii_space_low _ E1). unfold continues.
    apply andb_false_iff. left. apply N.leb_gt. lia. }
  destruct s as [|d s]; [discriminate|].
  destruct (space2 c d) eqn:E2.
  { intros _. destruct (space2_lead _ _ E2) as [Hc _]. unfold continues.
    now rewrite Hc. }
  destruct s as [|e s]; [discriminate|].
  destruct (space3 c d e) eqn:E3; [|discriminate].
  intros _. destruct (space3_lead _ _ _ E3) as (Hc & _). unfold continues.
  apply andb_false_iff. right. apply N.ltb_ge. lia.
Qed.

Lemma encoded_app_lead t : forall n c r,
  continues c = false ->
  encoded n (t +:+ String c r) = true ->
  encoded n t = true /\ encoded 0 (String c r) = true.
Proof.
  induction t as [|a t IH]; intros n c r Hc.
  - rewrite append_nil_l. destruct n as [|n]; [now split|].
    cbn [encoded]. now rewrite Hc.
  - rewrite append_cons. cbn [encoded]. destruct n as [|n].
    + destruct (followers a) as [k|]; [|discriminate]. now apply IH.
    + intros H. apply andb_true_iff in H as [Ha H].
      destruct (IH _ _ _ Hc H) as [H1 H2]. now rewrite Ha, H1.
Qed.

Lemma encoded_app p : forall n q,
  encoded n p = true -> encoded 0 q = true -> encoded n (p +:+ q) = true.
Proof.
  induction p as [|a p IH]; intros n q.
  - rewrite append_nil_l. destruct n; [auto | discriminate].
  - rewrite append_cons. cbn [encoded]. destruct n as [|n].
    + destruct (followers a) as [k|]; [|discriminate]. apply IH.
    + intros H Hq. apply andb_true_iff in H as [Ha H].
      rewrite Ha. cbn. now apply IH.
Qed.

Lemma rstrip_encoded u : encoded 0 u = true -> encoded 0 (rstrip u) = true.
Proof.
  intros Hu. destruct (rstrip_split u) as (r & Hs & Hr).
  destruct r as [|c r].
  - rewrite append_nil_r in Hs. now rewrite <- Hs.
  - rewrite all_space_step in Hr.
    destruct (space_prefix (String c r)) as [r'|] eqn:E; [|discriminate].
    rewrite Hs in Hu.
    exact (proj1 (encoded_app_lead _ _ _ _ (space_prefix_lead _ _ _ E) Hu)).
Qed.

Lemma strip_encoded s : encoded 0 s = true -> encoded 0 (strip s) = true.
Proof. intros H. unfold strip. now apply rstrip_encoded, lstrip_encoded. Qed.

(** Text that does not start with white space still does not when more
    text follows it. *)
Lemma space_prefix_none_app p q :
  encoded 0 p = true -> p <> "" -> space_prefix p = None ->
  space_prefix (p +:+ q) = None.
Proof.
  intros Hp Hne Hs. destruct p as [|c p]; [congruence|]. clear Hne.
  rewrite append_cons. cbn [space_prefix] in *.
  destruct (ascii_space c) eqn:E1; [discriminate|].
  cbn [encoded] in Hp. destruct (followers c) as [k|] eqn:F; [|discriminate].
  destruct (followers_cases _ _ F) as [_ Hk].
  assert (N3 : k = 0%nat \/ k = 1%nat -> forall d e, space3 c d e = false).
  { intros Hk' d e. destruct (space3 c d e) eqn:E3; [|reflexivity].
    destruct (space3_lead _ _ _ E3) as (Hc & _).
    destruct Hk' as [-> | ->]; lia. }
  assert (N2 : k = 0%nat -> forall d, space2 c d = false).
  { intros -> d. destruct (space2 c d) eqn:E2; [|reflexivity].
    destruct (space2_lead _ _ E2) as (Hc & _). lia. }
  destruct p as [|d p].
  - cbn [encoded] in Hp. apply Nat.eqb_eq in Hp. subst k.
    rewrite append_nil_l. destruct q as [|d q]; [reflexivity|].
    rewrite (N2 eq_refl). destruct q as [|e q]; [reflexivity|].
    now rewrite (N3 (or_introl eq_refl)).
  - rewrite append_cons. destruct (space2 c d) eqn:E2; [discriminate|].
    destruct p as [|e p].
    + rewrite append_nil_l. destruct q as [|e q]; [reflexivity|].
      rewrite N3; [reflexivity|].
      destruct k as [|[|k]]; [now left | now right|].
      exfalso. cbn [encoded] in Hp. apply andb_true_iff in Hp as [_ Hp].
      discriminate.
    + rewrite append_cons. destruct (space3 c d e); [discriminate | reflexivity].
Qed.

Lemma append_split p : forall q x e,
  p +:+ q = x +:+ e ->
  (exists m, q = m +:+ e)
  \/ (exists a m, e = String a m +:+ q).
Proof.
  induction p as [|a p IH]; intros q x e.
  - rewrite append_nil_l. intros ->. left. now exists x.
  - destruct x as [|b x].
    + rewrite append_nil_l. intros <-. right. now exists a, p.
    + rewrite !append_cons. intros [= _ H]. exact (IH _ _ _ H).
Qed.

(** A white-space character does not end in the middle of encoded text
    that follows. *)
Lemma one_space_straddle a m c q :
  one_space (String a m +:+ String c q) = true -> continues c = true.
Proof.
  unfold one_space. rewrite append_cons. cbn [space_prefix].
  destruct (ascii_space a).
  { destruct m; rewrite ?append_nil_l, ?append_cons; discriminate. }
  destruct m as [|d m].
  - rewrite append_nil_l. destruct (space2 a c) eqn:E2.
    { intros _. now destruct (space2_lead _ _ E2). }
    destruct q as [|e q]; [discriminate|].
    destruct (space3 a c e) eqn:E3; [|discriminate].
    intros _. now destruct (space3_lead _ _ _ E3) as (_ & H & _).
  - rewrite append_cons. destruct (space2 a d).
    { destruct m; rewrite ?append_nil_l, ?append_cons; discriminate. }
    destruct m as [|e m].
    + rewrite append_nil_l. destruct (space3 a d c) eqn:E3; [|discriminate].
      intros _. now destruct (space3_lead _ _ _ E3) as (_ & _ & H).
    + rewrite append_cons. destruct (space3 a d e); [|discriminate].
      destruct m; rewrite ?append_nil_l, ?append_cons; discriminate.
Qed.

Lemma no_space_suffix_app p q :
  encoded 0 q = true -> q <> "" -> no_space_suffix q ->
  no_space_suffix (p +:+ q).
Proof.
  intros Hq Hne Hs x e H.
  destruct (append_split _ _ _ _ H) as [(m & Hm) | (a & m & He)].
  - exact (Hs _ _ Hm).
  - destruct q as [|c q]; [congruence|].
    destruct (one_space e) eqn:E; [|reflexivity].
    rewrite He in E. apply one_space_straddle in E.
    rewrite (encoded_lead _ _ Hq) in E. discriminate.
Qed.

(** [get_text(strip=True)] of encoded strings: nothing, or text without
    white space at its ends. *)
Lemma join_stripped (l : list string) :
  Forall (fun s => encoded 0 s = true) l ->
  let t := join (List.filter truthy (map strip l)) in
  t = ""
  \/ (encoded 0 t = true /\ space_prefix t = None /\ no_space_suffix t).
Proof.
  cbv zeta. induction 1 as [|x l Hx _ IH]; [now left|].
  cbn [map List.filter].
  destruct (strip x) as [|c p] eqn:E; [exact IH|].
  cbn [truthy join]. right.
  assert (Hp : encoded 0 (String c p) = true)
    by (rewrite <- E; now apply strip_encoded).
  assert (Hs : space_prefix (String c p) = None)
    by (rewrite <- E; apply strip_starts).
  assert (He : no_space_suffix (String c p)).
  { intros y e Hy. rewrite <- E in Hy. exact (rstrip_ends _ _ _ Hy). }
  destruct IH as [-> | (Ht & Hst & Het)].
  - rewrite append_nil_r. auto.
  - split; [now apply encoded_app|].
    split; [now apply space_prefix_none_app|].
    destruct (join _) as [|c' t'] eqn:Et.
    + now rewrite append_nil_r.
    + now apply no_space_suffix_app.
Qed.

End EncodingFacts.

(** ** One category per batch *)

Module CategoryFacts.
Import Bs4 Extract Segments.

(** C9: after a successful extraction the document has a category marker
    with a link target, and the category list is one value, the text
    after the last slash of that target (the whole target when it has no
    slash), repeated once per title.  The list is as long as the titles
    list, every entry of it is that value, and so is the category of
    every record of a frame built from the result. *)
Theorem category_constant soup w dd w' :
  parse_content soup w = (Return (Some dd), w') ->
  exists a href c,
    select_one sel_category soup = Some a
    /\ get "href" a = Some href
    /\ after_last "/" href c
    /\ category dd = replicate (length (titles dd)) c
    /\ length (category dd) = length (titles dd)
    /\ (forall x, x ∈ category dd -> x = c)
    /\ (forall rows, DataFrame (Some dd) = Return rows ->
                     Forall (fun r => row_category r = c) rows).
Proof.
  intros H. apply ExtractFacts.parse_content_Some in H as [H _].
  destruct (ExtractFacts.parse_try_category _ _ H) as (c & Hc & Hcat).
  unfold category_of in Hc.
  destruct (select_one sel_category soup) as [a|]; [|discriminate].
  destruct (get "href" a) as [href|] eqn:Eh; [|discriminate].
  exists a, href, c.
  assert (Hall : forall x, x ∈ category dd -> x = c).
  { intros x Hx. rewrite Hcat in Hx. now apply elem_of_replicate in Hx. }
  split; [reflexivity|]. split; [exact Eh|].
  split; [now apply SegmentFacts.last_item_after|].
  split; [exact Hcat|].
  split; [rewrite Hcat at 1; apply length_replicate|].
  split; [exact Hall|].
  intros rows. unfold DataFrame. destruct (same_length dd); [|discriminate].
  intros [= <-]. apply (FrameFacts.Forall_zip_category (fun x => x = c)).
  apply Forall_forall. exact Hall.
Qed.

Lemma category_constant_witness :
  exists a href c,
    select_one sel_category Fixture.two_articles = Some a
    /\ get "href" a = Some href
    /\ after_last "/" href c
    /\ category Fixture2.two_articles_data
       = replicate (length (titles Fixture2.two_articles_data)) c
    /\ length (category Fixture2.two_articles_data)
       = length (titles Fixture2.two_articles_data)
    /\ (forall x, x ∈ category Fixture2.two_articles_data -> x = c)
    /\ (forall rows,
          DataFrame (Some Fixture2.two_articles_data) = Return rows ->
          Forall (fun r => row_category r = c) rows).
Proof.
  apply (category_constant Fixture.two_articles Fixture.w0
           Fixture2.two_articles_data Fixture.w0).
  vm_compute. reflexivity.
Defined.

End CategoryFacts.

(** ** Well-formed pages give one record per article container *)

Module PageFacts.
Import Bs4 Extract Fixture Segments.

(** A field that is shown is read back without the white space at its
    ends, and what is read back is not blank. *)
Lemma shown_shows o :
  shown o = true -> shows o (field o) /\ PyStr.visible (field o) = true.
Proof.
  destruct o as [s|]; [|discriminate]. simpl. intros Hv. split.
  - exists s. split; [reflexivity | apply SegmentFacts.strip_trims].
  - destruct (PyStrFacts.strip_visible s Hv) as (c & t & E).
    apply PyStrFacts.nonempty_visible; [now rewrite E|].
    apply PyStrFacts.strip_starts.
Qed.


Lemma Forall2_map_r {X Y} (R : X -> Y -> Prop) (f : X -> Y) (P : X -> Prop) l :
  Forall P l -> (forall x, P x -> R x (f x)) -> Forall2 R l (map f l).
Proof.
  intros H HR. induction H as [|x l Hx _ IH]; simpl; constructor; auto.
Qed.



(** What the padded page is read as: the white space around the texts,
    the no-break and the ideographic space included, is gone. *)
Example padded_page_rows :
  rbind (fst (parse_content (page "/en/read/sports" padded) w0)) DataFrame
  = Return [mkRow "sports" "First title" "1 May" "One." (PyString "https://x/1");
            mkRow "sports" "Second title" "2 May" "Two." PyNone].
Proof. vm_compute. reflexivity. Qed.

(** A date made of [&nbsp;] alone is dropped like a blank one: the date
    list is one short and no frame can be built. *)
Example nbsp_date_is_dropped :
  let dd := mkDetailData ["sports"; "sports"] ["T1"; "T2"] ["d2"]
                         ["D1"; "D2"] [PyString "https://x/1"; PyNone] in
  fst (parse_content nbsp_first_date w0) = Return (Some dd)
  /\ DataFrame (Some dd)
     = Raise (mkExc ValueError "All arrays must be of the same length").
Proof. vm_compute. split; reflexivity. Qed.

End PageFacts.

(** ** parse_content on every document *)

Module ExtractMore.
Import Bs4 Extract Segments.

Lemma url_of_from p u : url_of p = Return u -> url_from p u.
Proof.
  unfold url_of, url_from, getitem, rbind.
  destruct (select_one sel_url p) as [a|]; [|now intros [= <-]].
  destruct (get "href" a) as [h|]; [|discriminate].
  intros [= <-]. eauto.
Qed.

Lemma url_of_raises p :
  bare_anchor sel_url p -> url_of p = Raise (mkExc KeyError "href").
Proof.
  intros (a & Ha & Hh). unfold url_of, getitem, rbind. now rewrite Ha, Hh.
Qed.

Lemma url_of_cases p :
  (exists u, url_of p = Return u) \/ bare_anchor sel_url p.
Proof.
  unfold url_of, bare_anchor, getitem, rbind.
  destruct (select_one sel_url p) as [a|]; [|eauto].
  destruct (get "href" a) as [h|] eqn:E; eauto.
Qed.

Lemma append_urls_cases points acc :
  (exists us, append_urls points acc = Return us)
  \/ (Exists (bare_anchor sel_url) points
      /\ append_urls points acc = Raise (mkExc KeyError "href")).
Proof.
  revert acc. induction points as [|p points IH]; intros acc; simpl.
  - left. eauto.
  - destruct (url_of_cases p) as [[u Hu] | Hbare].
    + rewrite Hu. simpl.
      destruct (IH (acc ++ [u])) as [Hok | [Hex Hr]]; [now left|].
      right. split; [now apply Exists_cons_tl | exact Hr].
    + right. rewrite (url_of_raises _ Hbare). split; [now apply Exists_cons_hd|].
      reflexivity.
Qed.

Lemma append_urls_bare points acc :
  Exists (bare_anchor sel_url) points ->
  append_urls points acc = Raise (mkExc KeyError "href").
Proof.
  intros H. revert acc. induction H as [p points Hp | p points _ IH];
    intros acc; simpl.
  - now rewrite (url_of_raises _ Hp).
  - destruct (url_of_cases p) as [[u ->] | Hbare]; simpl; [apply IH|].
    now rewrite (url_of_raises _ Hbare).
Qed.

Lemma category_of_cases soup :
  (exists c, category_of soup = Return c)
  \/ select_one sel_category soup = None
  \/ bare_anchor sel_category soup.
Proof.
  unfold category_of, bare_anchor.
  destruct (select_one sel_category soup) as [a|]; [|auto].
  destruct (get "href" a) as [h|] eqn:E; [|eauto].
  left. apply PyStrFacts.last_item_split.
Qed.

Lemma parse_try_fields soup dd :
  parse_try soup = Return dd ->
  titles dd = texts (select sel_titles soup)
  /\ date dd = texts (select sel_dates soup)
  /\ descriptions dd = texts (select sel_descriptions soup).
Proof.
  unfold parse_try, rbind.
  destruct (category_of soup); [|discriminate].
  destruct (append_urls _ _); [|discriminate].
  intros [= <-]. auto.
Qed.

(** In every extraction that succeeds the url list has one entry per
    article container, in document order: the link target of the
    container's anchor, or [None] when it has no anchor; never
    [np.nan]. *)
Theorem urls_per_container soup w dd w' :
  parse_content soup w = (Return (Some dd), w') ->
  Forall2 url_from (select sel_start_point soup) (urls dd)
  /\ length (urls dd) = length (select sel_start_point soup)
  /\ Forall (fun u => u <> PyNaN) (urls dd).
Proof.
  intros H. apply ExtractFacts.parse_content_Some in H as [H _].
  pose proof (AlignmentFacts.urls_follow_containers _ _ H) as F.
  assert (F' : Forall2 url_from (select sel_start_point soup) (urls dd)).
  { eapply Forall2_impl; [exact F|]. intros p u. apply url_of_from. }
  split; [exact F'|]. split; [symmetry; exact (Forall2_length _ _ _ F')|].
  clear F'. induction F as [|p u ps us Hpu _ IH]; constructor; [|exact IH].
  intros ->. exact (AlignmentFacts.url_of_never_nan _ Hpu).
Qed.

Lemma urls_per_container_witness :
  Forall2 url_from (select sel_start_point Fixture.two_articles)
          [PyString "https://x/1"; PyNone]
  /\ 2%nat = length (select sel_start_point Fixture.two_articles)
  /\ Forall (fun u => u <> PyNaN) [PyString "https://x/1"; PyNone].
Proof.
  apply (urls_per_container Fixture.two_articles Fixture.w0
           (mkDetailData ["sports"; "sports"] ["T1"; "T2"] ["d1"; "d2"]
                         ["D1"; "D2"] [PyString "https://x/1"; PyNone])
           Fixture.w0).
  vm_compute. reflexivity.
Defined.

(** parse_content returns [None] exactly when the category marker is
    missing, or its anchor has no href, or the anchor of some article
    container has no href. *)
Theorem parse_content_none_iff soup w :
  fst (parse_content soup w) = Return None
  <-> (select_one sel_category soup = None
       \/ bare_anchor sel_category soup
       \/ Exists (bare_anchor sel_url) (select sel_start_point soup)).
Proof.
  assert (Hraise : forall e, parse_try soup = Raise e ->
                             fst (parse_content soup w) = Return None).
  { intros e E. destruct (ExtractFacts.parse_content_caught soup e w E)
      as [line ->]. reflexivity. }
  split.
  - intros Hnone.
    destruct (category_of_cases soup) as [[c Hc] | [Hm | Hb]]; [|auto|auto].
    destruct (append_urls_cases (select sel_start_point soup) [])
      as [[us Hus] | [Hex _]]; [|auto].
    exfalso.
    assert (E : parse_try soup
                = Return (mkDetailData
                            (append_category
                               (length (texts (select sel_titles soup))) c [])
                            (texts (select sel_titles soup))
                            (texts (select sel_dates soup))
                            (texts (select sel_descriptions soup)) us)).
    { unfold parse_try. rewrite Hc. simpl. now rewrite Hus. }
    rewrite (ExtractFacts.parse_content_ok _ _ w E) in Hnone. discriminate.
  - intros [Hm | [(a & Ha & Hh) | Hex]].
    + eapply Hraise. unfold parse_try, category_of. now rewrite Hm.
    + eapply Hraise. unfold parse_try, category_of. now rewrite Ha, Hh.
    + destruct (category_of soup) as [c|e] eqn:Ec.
      * eapply Hraise. unfold parse_try. rewrite Ec. simpl.
        now rewrite (append_urls_bare _ _ Hex).
      * eapply Hraise. unfold parse_try. now rewrite Ec.
Qed.

(** An anchor without href in an article container is reported as an
    unhandled exception naming the key, not as a null reference. *)
Theorem bare_anchor_diagnostic soup w c :
  category_of soup = Return c ->
  Exists (bare_anchor sel_url) (select sel_start_point soup) ->
  parse_content soup w
  = (Return None,
     mkWorld (stdout w ++ [Line "An unhandled exception occurred: 'href'"])
             (trace w) (table w)).
Proof.
  intros Hc Hex.
  unfold parse_content, try_except, bind, lift, parse_try.
  rewrite Hc. simpl rbind. now rewrite (append_urls_bare _ _ Hex).
Qed.

(** The category is what follows the last slash of the marker's link
    target; a target that ends in a slash gives the empty category. *)
Theorem category_is_last_segment soup w dd w' a prefix seg :
  parse_content soup w = (Return (Some dd), w') ->
  select_one sel_category soup = Some a ->
  get "href" a = Some (prefix +:+ String "/" seg) ->
  free_of "/" seg = true ->
  category dd = replicate (length (titles dd)) seg.
Proof.
  intros H Ha Hh Hfree. apply ExtractFacts.parse_content_Some in H as [H _].
  destruct (ExtractFacts.parse_try_category _ _ H) as (c & Hc & ->).
  unfold category_of in Hc. rewrite Ha, Hh in Hc.
  rewrite (SegmentFacts.last_segment _ _ _ Hfree) in Hc.
  now injection Hc as <-.
Qed.

Lemma texts_of_encoded soup sel t :
  encoded_document soup = true -> t ∈ texts (select sel soup) ->
  PyStr.visible t = true /\ trimmed t.
Proof.
  unfold encoded_document, texts, select. rewrite forallb_forall.
  intros Henc Ht.
  apply list_elem_of_In, filter_In in Ht as [Hin Htruthy].
  apply in_map_iff in Hin as (e & <- & He).
  apply filter_In in He as [He _]. specialize (Henc _ He).
  rewrite forallb_forall in Henc.
  assert (Hall : Forall (fun s => PyStr.encoded 0 s = true) (all_strings (self e))).
  { apply Forall_forall. intros s Hs. apply Henc. now apply list_elem_of_In. }
  destruct (EncodingFacts.join_stripped _ Hall) as [E | (_ & Hs & Hsuf)].
  - unfold get_text_strip in Htruthy. rewrite E in Htruthy. discriminate.
  - fold (get_text_strip e) in Hs, Hsuf. split; [|now split].
    apply PyStrFacts.nonempty_visible; [|exact Hs].
    intros E. rewrite E in Htruthy. discriminate.
Qed.

(** Whatever the document, as long as its strings are encoded text:
    every title, date and description that parse_content returns holds a
    character that is not white space and has no white-space character
    at either end. *)
Theorem texts_trimmed soup w dd w' :
  parse_content soup w = (Return (Some dd), w') ->
  encoded_document soup = true ->
  Forall (fun t => PyStr.visible t = true /\ trimmed t) (titles dd)
  /\ Forall (fun t => PyStr.visible t = true /\ trimmed t) (date dd)
  /\ Forall (fun t => PyStr.visible t = true /\ trimmed t) (descriptions dd).
Proof.
  intros H Henc. apply ExtractFacts.parse_content_Some in H as [H _].
  destruct (parse_try_fields _ _ H) as (-> & -> & ->).
  repeat split; apply Forall_forall; intros t Ht;
    exact (texts_of_encoded _ _ _ Henc Ht).
Qed.

Lemma texts_trimmed_witness :
  Forall (fun t => PyStr.visible t = true /\ trimmed t)
         (titles Fixture2.padded_data)
  /\ Forall (fun t => PyStr.visible t = true /\ trimmed t)
            (date Fixture2.padded_data)
  /\ Forall (fun t => PyStr.visible t = true /\ trimmed t)
            (descriptions Fixture2.padded_data).
Proof.
  apply (texts_trimmed (Fixture.page "/en/read/sports" Fixture.padded)
           Fixture.w0 Fixture2.padded_data Fixture.w0);
    vm_compute; reflexivity.
Defined.

Lemma bare_anchor_diagnostic_witness :
  parse_content Fixture2.bare_page Fixture.w0
  = (Return None,
     mkWorld [Line "An unhandled exception occurred: 'href'"] [] []).
Proof.
  apply (bare_anchor_diagnostic Fixture2.bare_page Fixture.w0 "sports").
  - vm_compute. reflexivity.
  - apply Exists_cons_hd. exists
      (mkElement [mkHead "div" ["c80ZAVi5M80kecYskLY3"];
                  mkHead "div" ["TfxplVx3RtbilOD2tqd6"];
                  mkHead "[document]" []] (Tag "a" [] ∅ [])).
    split; vm_compute; reflexivity.
Defined.

Lemma category_is_last_segment_witness :
  category Fixture2.two_articles_data
  = replicate (length (titles Fixture2.two_articles_data)) "sports".
Proof.
  apply (category_is_last_segment Fixture.two_articles Fixture.w0
           Fixture2.two_articles_data Fixture.w0
           (Fixture2.marker_anchor "/en/read/sports") "/en/read" "sports").
  - vm_compute. reflexivity.
  - vm_compute. reflexivity.
  - vm_compute. reflexivity.
  - reflexivity.
Defined.

End ExtractMore.

(** ** Pages read back *)

Module PageMore.
Import Bs4 Extract Fixture Segments.

(** A page rendered from articles that each show a title, a date and a
    description is read back article by article: entry [i] of the title,
    date and description lists is the text of article [i] without the
    white space at its ends, entry [i] of the url list is its link, or
    [None] when it has none, and the category list repeats, once per
    article, what follows the last slash of the marker's link target. *)
Theorem page_read_back href arts w :
  Forall (fun a => complete a = true) arts ->
  exists dd c,
    parse_content (page href arts) w = (Return (Some dd), w)
    /\ after_last "/" href c
    /\ category dd = replicate (length arts) c
    /\ Forall2 (fun a t => shows (a_title a) t) arts (titles dd)
    /\ Forall2 (fun a t => shows (a_date a) t) arts (date dd)
    /\ Forall2 (fun a t => shows (a_description a) t) arts (descriptions dd)
    /\ urls dd = map link arts.
Proof.
  intros Hall.
  destruct (FixtureFacts.page_extracts href arts Hall) as (c & Hc & Htry).
  eexists. exists c.
  split; [exact (ExtractFacts.parse_content_ok _ _ w Htry)|].
  split; [now apply SegmentFacts.last_item_after|].
  assert (Hparts : forall a, complete a = true ->
            shown (a_title a) = true /\ shown (a_date a) = true
            /\ shown (a_description a) = true).
  { intros a. unfold complete. rewrite !andb_true_iff. tauto. }
  simpl. split; [reflexivity|].
  repeat split;
    apply (PageFacts.Forall2_map_r _ _ (fun a => complete a = true));
    try exact Hall; intros a Ha; destruct (Hparts a Ha) as (Ht & Hd & Hds);
    now apply PageFacts.shown_shows.
Qed.

Lemma page_read_back_witness :
  exists dd c,
    parse_content (page "/en/read/sports" padded) w0 = (Return (Some dd), w0)
    /\ after_last "/" "/en/read/sports" c
    /\ category dd = replicate (length padded) c
    /\ Forall2 (fun a t => shows (a_title a) t) padded (titles dd)
    /\ Forall2 (fun a t => shows (a_date a) t) padded (date dd)
    /\ Forall2 (fun a t => shows (a_description a) t) padded (descriptions dd)
    /\ urls dd = map link padded.
Proof.
  apply (page_read_back "/en/read/sports" padded w0).
  repeat constructor.
Defined.

End PageMore.

(** ** What a computation leaves unobserved *)

Module ObserveFacts.
Import Observe.

Section Preserves.
Context {X : Type} (f : list Event -> X).

Lemma preserves_ret {A} (a : A) : preserves f (ret a).
Proof. intros w. reflexivity. Qed.

Lemma preserves_raise {A} e : preserves f (@raise A e).
Proof. intros w. reflexivity. Qed.

Lemma preserves_lift {A} (r : Result A) : preserves f (lift r).
Proof. intros w. reflexivity. Qed.

Lemma preserves_print o : preserves f (print o).
Proof. intros w. reflexivity. Qed.

Lemma preserves_emit ev : ignores f ev -> preserves f (emit ev).
Proof. intros H w. apply H. Qed.

Lemma preserves_call ev fault : ignores f ev -> preserves f (call ev fault).
Proof.
  intros H. destruct fault; [apply preserves_raise | now apply preserves_emit].
Qed.

Lemma preserves_bind {A B} (m : M A) (k : A -> M B) :
  preserves f m -> (forall a, preserves f (k a)) -> preserves f (bind m k).
Proof.
  intros Hm Hk w. specialize (Hm w). unfold bind.
  destruct (m w) as [[a|e] w1]; simpl in *; [|exact Hm].
  now rewrite (Hk a w1).
Qed.

Lemma preserves_try {A} (m : M A) (h : Exception -> M A) :
  preserves f m -> (forall e, preserves f (h e)) -> preserves f (try_except m h).
Proof.
  intros Hm Hh w. specialize (Hm w). unfold try_except.
  destruct (m w) as [[a|e] w1]; simpl in *; [exact Hm|].
  now rewrite (Hh e w1).
Qed.

Lemma preserves_with_exit {A} (m : M A) (exit : M unit) :
  preserves f m -> preserves f exit -> preserves f (with_exit m exit).
Proof.
  intros Hm Hx w. specialize (Hm w). unfold with_exit.
  destruct (m w) as [r w1]; simpl in *.
  specialize (Hx w1). destruct (exit w1) as [r' w2]; simpl in *.
  now rewrite Hx.
Qed.

End Preserves.

Section KeepsTable.

Lemma keeps_table_ret {A} (a : A) : keeps_table (ret a).
Proof. intros w. reflexivity. Qed.

Lemma keeps_table_raise {A} e : keeps_table (@raise A e).
Proof. intros w. reflexivity. Qed.

Lemma keeps_table_lift {A} (r : Result A) : keeps_table (lift r).
Proof. intros w. reflexivity. Qed.

Lemma keeps_table_print o : keeps_table (print o).
Proof. intros w. reflexivity. Qed.

Lemma keeps_table_emit ev : keeps_table (emit ev).
Proof. intros w. reflexivity. Qed.

Lemma keeps_table_call ev fault : keeps_table (call ev fault).
Proof. destruct fault; intros w; reflexivity. Qed.

Lemma keeps_table_bind {A B} (m : M A) (k : A -> M B) :
  keeps_table m -> (forall a, keeps_table (k a)) -> keeps_table (bind m k).
Proof.
  intros Hm Hk w. specialize (Hm w). unfold bind.
  destruct (m w) as [[a|e] w1]; simpl in *; [|exact Hm].
  now rewrite (Hk a w1).
Qed.

End KeepsTable.

Lemma filter_ignores (p : Event -> bool) ev :
  p ev = false -> ignores (List.filter p) ev.
Proof.
  intros H tr. rewrite List.filter_app. simpl. rewrite H. apply app_nil_r.
Qed.

Lemma count_clicks_ignores ev :
  Fetch.is_click ev = false -> ignores Fetch.count_clicks ev.
Proof.
  intros H tr. unfold Fetch.count_clicks.
  now rewrite (filter_ignores _ _ H).
Qed.

Lemma count_closes_ignores ev :
  is_session_close ev = false -> ignores count_closes ev.
Proof.
  intros H tr. unfold count_closes. now rewrite (filter_ignores _ _ H).
Qed.

Lemma unpaced_ignores ev :
  Fetch.is_click ev = false -> is_pause ev = false -> ignores unpaced ev.
Proof.
  intros H1 H2 tr. unfold unpaced, count_pauses, Fetch.count_clicks.
  now rewrite (filter_ignores _ _ H1), (filter_ignores _ _ H2).
Qed.

Lemma unpaced_loop tr j : unpaced (tr ++ Fetch.loop_events j) = unpaced tr.
Proof.
  unfold unpaced, count_pauses, Fetch.count_clicks.
  rewrite !List.filter_app, !length_app.
  assert (H : length (List.filter Fetch.is_click (Fetch.loop_events j)) = j
              /\ length (List.filter is_pause (Fetch.loop_events j)) = j).
  { induction j as [|j [IH1 IH2]]; [split; reflexivity|].
    simpl. now rewrite IH1, IH2. }
  destruct H as [-> ->]. lia.
Qed.

Lemma filter_loop (p : Event -> bool) tr j :
  p (EvClick Fetch.load_more) = false -> p (EvSleep 1) = false ->
  List.filter p (tr ++ Fetch.loop_events j) = List.filter p tr.
Proof.
  intros H1 H2. rewrite List.filter_app.
  assert (List.filter p (Fetch.loop_events j) = []) as ->.
  { induction j as [|j IH]; [reflexivity|]. simpl. now rewrite H1, H2. }
  apply app_nil_r.
Qed.

End ObserveFacts.

(** ** fetch_content on every environment *)

Module FetchMore.
Import Fetch Observe ObserveFacts.

Section WithEnv.
Variable env : Env.

Lemma click_loop_preserves {X} (f : list Event -> X) todo c :
  (forall tr j, f (tr ++ loop_events j) = f tr) ->
  preserves f (click_loop env todo c).
Proof.
  intros Hloop w.
  destruct (FetchFacts.click_loop_run env todo c w) as (j & -> & _).
  apply Hloop.
Qed.

Lemma time_taken_preserves {X} (f : list Event -> X) :
  preserves f (time_taken env).
Proof. intros w. reflexivity. Qed.

Lemma page_content_preserves {X} (f : list Event -> X) url :
  ignores f EvContent -> preserves f (page_content env url).
Proof.
  intros H w. unfold page_content.
  destruct (content env url _); simpl; [apply H | reflexivity].
Qed.

(** An observation that sees neither the steps of navigation nor the
    rounds of the loop is the same before and after fetch_content. *)
Lemma fetch_content_preserves {X} (f : list Event -> X) url n :
  (forall ev, is_step ev = true -> ignores f ev) ->
  (forall tr j, f (tr ++ loop_events j) = f tr) ->
  preserves f (fetch_content env url n).
Proof.
  intros Hstep Hloop. unfold fetch_content, in_session, click_phase.
  apply preserves_try.
  - apply preserves_bind; [now apply preserves_call, Hstep | intros _].
    apply preserves_with_exit; [|now apply preserves_emit, Hstep].
    repeat (apply preserves_bind;
            [now apply preserves_call, Hstep | intros _]).
    apply preserves_bind.
    + apply preserves_try.
      * apply preserves_bind; [now apply click_loop_preserves | intros _].
        apply time_taken_preserves.
      * intros e. destruct (is_AttributeError e); [apply preserves_print|].
        apply preserves_bind; [apply preserves_print | intros _].
        apply preserves_raise.
    + intros _. apply preserves_bind.
      * now apply page_content_preserves, Hstep.
      * intros html. apply preserves_bind;
          [now apply preserves_call, Hstep | intros _; apply preserves_ret].
  - intros e. apply preserves_bind; [apply preserves_print | intros _].
    apply preserves_raise.
Qed.

(** What the click phase leaves: some rounds of the loop, and either a
    normal end or the exception of the click that failed, unless that
    was an AttributeError. *)
Lemma click_phase_run n w :
  exists j,
    trace (snd (click_phase env n w)) = trace w ++ loop_events j
    /\ (j <= Z.to_nat n)%nat
    /\ (forall i, (i < j)%nat -> click env i = None)
    /\ match fst (click_phase env n w) with
       | Return _ =>
           j = Z.to_nat n
           \/ exists e, click env j = Some e /\ is_AttributeError e = true
       | Raise e => click env j = Some e /\ is_AttributeError e = false
       end.
Proof.
  destruct (FetchFacts.click_loop_run env (Z.to_nat n) O w)
    as (j & Htr & _ & Hle & Hpre & Hres).
  exists j. unfold click_phase, try_except, bind.
  destruct (click_loop env (Z.to_nat n) O w) as [[[]|e] w1]; simpl in *.
  - repeat split; auto.
  - destruct Hres as [Hlt He].
    destruct (is_AttributeError e) eqn:Ecls; simpl; repeat split; eauto.
Qed.

End WithEnv.

Lemma fetch_content_outside env url n w :
  outside_browser (trace (snd (fetch_content env url n w)))
  = outside_browser (trace w)
  /\ table (snd (fetch_content env url n w)) = table w.
Proof.
  split.
  - apply (fetch_content_preserves env outside_browser).
    + intros ev Hev. apply filter_ignores. now destruct ev.
    + intros tr j. now apply filter_loop.
  - now destruct (FetchFacts.interactions_bounded env url n w) as (_ & _ & H).
Qed.

(** fetch_content acts on the browser and on nothing else: it adds no
    export and no storage event to the trace and leaves the table as it
    is, whether it returns or raises. *)
Theorem fetch_content_only_browses env url n w :
  outside_browser (trace (snd (fetch_content env url n w)))
  = outside_browser (trace w)
  /\ table (snd (fetch_content env url n w)) = table w
  /\ Observe.count_closes (trace (snd (fetch_content env url n w)))
     = Observe.count_closes (trace w).
Proof.
  destruct (fetch_content_outside env url n w) as [H1 H2].
  repeat split; [exact H1 | exact H2 |].
  apply (fetch_content_preserves env count_closes).
  - intros ev Hev. apply count_closes_ignores. now destruct ev.
  - intros tr j. unfold count_closes. now rewrite filter_loop.
Qed.

(** Every click that went through is followed by its one-second pause:
    over a call, clicks and pauses grow by the same number, also when the
    call is cut short by an exception. *)
Theorem clicks_are_paced env url n w :
  unpaced (trace (snd (fetch_content env url n w))) = unpaced (trace w).
Proof.
  apply (fetch_content_preserves env unpaced).
  - intros ev Hev. apply unpaced_ignores; now destruct ev.
  - apply unpaced_loop.
Qed.

(** When fetch_content returns a document, navigation went through, some
    [j] clicks were answered, the document is the page content after
    those [j] clicks, and the call ended by capturing the content,
    closing the browser and stopping the driver. *)
Theorem returned_document env url n w html :
  fst (fetch_content env url n w) = Return html ->
  navigates env url
  /\ browser_close env = None
  /\ exists j,
       (j <= Z.to_nat n)%nat
       /\ (forall i, (i < j)%nat -> click env i = None)
       /\ content env url j = Return html
       /\ trace (snd (fetch_content env url n w))
          = opened w url j ++ [EvContent; EvBrowserClose; EvDriverStop].
Proof.
  unfold fetch_content, in_session, try_except, with_exit, bind, call,
    navigates.
  destruct (driver_start env); simpl; [discriminate|].
  destruct (launch env); simpl; [discriminate|].
  destruct (new_page env); simpl; [discriminate|].
  destruct (goto env url); simpl; [discriminate|].
  destruct (wait_for_selector env); simpl; [discriminate|].
  match goal with
  | |- context [click_phase env n ?w1] =>
      destruct (click_phase_run env n w1) as (j & Htr & Hle & Hpre & _);
      destruct (click_phase env n w1) as [[[]|e] w2]
  end; simpl in *; [|discriminate].
  unfold page_content. rewrite Htr.
  fold (opened w url j). rewrite FetchFacts.clicks_on_page_opened.
  destruct (content env url j) as [doc|e] eqn:Ec; simpl; [|discriminate].
  destruct (browser_close env); simpl; [discriminate|].
  intros [= <-]. repeat split; try reflexivity.
  exists j. repeat split; auto.
  now rewrite <- !app_assoc.
Qed.

Lemma returned_document_witness :
  let env := Fixture.browser "sports" Fixture.two_articles Fixture.always_there in
  navigates env Fixture.sports_url
  /\ browser_close env = None
  /\ exists j,
       (j <= Z.to_nat 10)%nat
       /\ (forall i, (i < j)%nat -> click env i = None)
       /\ content env Fixture.sports_url j = Return Fixture.two_articles
       /\ trace (snd (fetch_content env Fixture.sports_url 10 Fixture.w0))
          = opened Fixture.w0 Fixture.sports_url j
            ++ [EvContent; EvBrowserClose; EvDriverStop].
Proof.
  apply (returned_document
           (Fixture.browser "sports" Fixture.two_articles Fixture.always_there)
           Fixture.sports_url 10 Fixture.w0 Fixture.two_articles).
  vm_compute. reflexivity.
Defined.

(** A count that is zero or negative asks for no click: none is made,
    and with navigation, capture and close going through the page comes
    back as it was loaded. *)
Theorem no_click_asked env url n w :
  (n <= 0)%Z ->
  interactions w (snd (fetch_content env url n w)) = O
  /\ forall html,
       navigates env url -> content env url O = Return html ->
       browser_close env = None ->
       fst (fetch_content env url n w) = Return html.
Proof.
  intros Hn. assert (Hz : Z.to_nat n = O) by lia. split.
  - destruct (FetchFacts.interactions_bounded env url n w) as (Hle & _).
    cbv zeta in Hle. lia.
  - intros html Hnav Hc Hb.
    destruct (FetchFacts.all_clicks_answered env url n html w Hnav)
      as (out & ->); [intros i Hi; lia | now rewrite Hz | exact Hb |].
    reflexivity.
Qed.

Lemma no_click_asked_witness :
  let env := Fixture.browser "sports" Fixture.two_articles Fixture.always_there in
  interactions Fixture.w0 (snd (fetch_content env Fixture.sports_url (-3) Fixture.w0))
  = O
  /\ forall html,
       navigates env Fixture.sports_url ->
       content env Fixture.sports_url O = Return html ->
       browser_close env = None ->
       fst (fetch_content env Fixture.sports_url (-3) Fixture.w0) = Return html.
Proof.
  apply (no_click_asked
           (Fixture.browser "sports" Fixture.two_articles Fixture.always_there)
           Fixture.sports_url (-3) Fixture.w0).
  lia.
Defined.

(** When a step of navigation fails, fetch_content raises the exception
    of the first step that failed; nothing beyond the steps before it and
    the stop of the driver has happened: no click, no capture, no close
    of the browser. *)
Theorem navigation_fault_aborts env url n w e :
  first_fault env url = Some e ->
  fst (fetch_content env url n w) = Raise e
  /\ exists evs,
       trace (snd (fetch_content env url n w)) = trace w ++ evs
       /\ Forall (fun ev => ev ∈ [EvDriverStart; EvLaunch; EvNewPage;
                                  EvGoto url; EvDriverStop]) evs.
Proof.
  unfold first_fault, fetch_content, in_session, try_except, with_exit, bind,
    call.
  destruct (driver_start env) as [e0|]; simpl.
  { intros [= <-]. split; [reflexivity|]. exists []. split;
      [now rewrite app_nil_r | constructor]. }
  destruct (launch env) as [e1|]; simpl.
  { intros [= <-]. split; [reflexivity|]. eexists. rewrite <- !app_assoc.
    split; [reflexivity|]. repeat constructor. }
  destruct (new_page env) as [e2|]; simpl.
  { intros [= <-]. split; [reflexivity|]. eexists. rewrite <- !app_assoc.
    split; [reflexivity|]. repeat constructor. }
  destruct (goto env url) as [e3|]; simpl.
  { intros [= <-]. split; [reflexivity|]. eexists. rewrite <- !app_assoc.
    split; [reflexivity|]. repeat constructor. }
  intros Hw. rewrite Hw. simpl.
  split; [reflexivity|]. eexists. rewrite <- !app_assoc.
  split; [reflexivity|]. repeat constructor.
Qed.

Lemma navigation_fault_aborts_witness :
  fst (fetch_content (Fixture2.offline "sports") Fixture.sports_url 10 Fixture.w0)
  = Raise Fixture2.navigation_fault
  /\ exists evs,
       trace (snd (fetch_content (Fixture2.offline "sports")
                     Fixture.sports_url 10 Fixture.w0))
       = trace Fixture.w0 ++ evs
       /\ Forall (fun ev => ev ∈ [EvDriverStart; EvLaunch; EvNewPage;
                                  EvGoto Fixture.sports_url; EvDriverStop]) evs.
Proof.
  apply (navigation_fault_aborts (Fixture2.offline "sports")
           Fixture.sports_url 10 Fixture.w0 Fixture2.navigation_fault).
  reflexivity.
Defined.

(** When every click is answered, fetch_content makes exactly the number
    of clicks asked for and returns the page content captured after the
    last of them. *)
Theorem every_click_answered env url n html w :
  navigates env url ->
  (forall i, (i < Z.to_nat n)%nat -> click env i = None) ->
  content env url (Z.to_nat n) = Return html ->
  browser_close env = None ->
  fst (fetch_content env url n w) = Return html
  /\ interactions w (snd (fetch_content env url n w)) = Z.to_nat n
  /\ trace (snd (fetch_content env url n w))
     = opened w url (Z.to_nat n) ++ [EvContent; EvBrowserClose; EvDriverStop].
Proof.
  intros Hnav Hpre Hc Hb.
  destruct (FetchFacts.all_clicks_answered env url n html w Hnav Hpre Hc Hb)
    as (out & ->).
  repeat split. unfold interactions. simpl trace.
  apply FetchFacts.count_clicks_opened. repeat constructor.
Qed.

Lemma every_click_answered_witness :
  let env := Fixture.browser "sports" Fixture.two_articles Fixture.always_there in
  fst (fetch_content env Fixture.sports_url 3 Fixture.w0)
  = Return Fixture.two_articles
  /\ interactions Fixture.w0 (snd (fetch_content env Fixture.sports_url 3 Fixture.w0))
     = Z.to_nat 3
  /\ trace (snd (fetch_content env Fixture.sports_url 3 Fixture.w0))
     = opened Fixture.w0 Fixture.sports_url (Z.to_nat 3)
       ++ [EvContent; EvBrowserClose; EvDriverStop].
Proof.
  apply (every_click_answered
           (Fixture.browser "sports" Fixture.two_articles Fixture.always_there)
           Fixture.sports_url 3 Fixture.two_articles Fixture.w0).
  - repeat split.
  - intros i _. reflexivity.
  - reflexivity.
  - reflexivity.
Defined.

Lemma click_fault_fails_witness :
  exists out,
    fetch_content
      (Fixture.browser "sports" Fixture.two_articles
         (Fixture.gone_at 2 Fixture.click_timeout))
      Fixture.sports_url 10 Fixture.w0
    = (Raise Fixture.click_timeout,
       mkWorld out
         (opened Fixture.w0 Fixture.sports_url 2 ++ [EvDriverStop])
         (table Fixture.w0)).
Proof.
  apply (FetchFacts.click_fault_fails
           (Fixture.browser "sports" Fixture.two_articles
              (Fixture.gone_at 2 Fixture.click_timeout))
           Fixture.sports_url 10 2 Fixture.click_timeout Fixture.w0).
  - repeat split.
  - vm_compute. lia.
  - intros [|[|i]] Hi; try reflexivity. lia.
  - reflexivity.
  - reflexivity.
Defined.

Lemma attribute_error_ends_loop_witness :
  exists out,
    fetch_content
      (Fixture.browser "sports" Fixture.two_articles
         (Fixture.gone_at 2 (mkExc AttributeError "click")))
      Fixture.sports_url 10 Fixture.w0
    = (Return Fixture.two_articles,
       mkWorld out
         (opened Fixture.w0 Fixture.sports_url 2
          ++ [EvContent; EvBrowserClose; EvDriverStop])
         (table Fixture.w0)).
Proof.
  apply (FetchFacts.attribute_error_ends_loop
           (Fixture.browser "sports" Fixture.two_articles
              (Fixture.gone_at 2 (mkExc AttributeError "click")))
           Fixture.sports_url 10 2 (mkExc AttributeError "click")
           Fixture.two_articles Fixture.w0).
  - repeat split.
  - vm_compute. lia.
  - intros [|[|i]] Hi; try reflexivity. lia.
  - reflexivity.
  - reflexivity.
  - reflexivity.
  - reflexivity.
Defined.

End FetchMore.

(** ** The storage operations *)

Module DbMore.
Import Db DbUpdate.

(** The rows stored before stay where they are; the new rows follow in
    the order given. *)
Lemma flush_appends rows : forall t,
  exists new, flush rows t = t ++ new /\ map snd new = rows.
Proof.
  induction rows as [|r rows IH]; intros t; simpl.
  - exists []. now rewrite app_nil_r.
  - destruct (IH (t ++ [(next_id t, r)])) as (new & -> & Hrows).
    exists ((next_id t, r) :: new). rewrite <- app_assoc. simpl.
    now rewrite Hrows.
Qed.

(** insert_data keeps every row that was stored, in place, and puts the
    rows of the frame after them in the order of the frame. *)
Theorem insert_data_appends df w :
  exists new,
    table (snd (insert_data None df (mkSession []) w)) = table w ++ new
    /\ map snd new = df
    /\ fst (insert_data None df (mkSession []) w) = Return (mkSession []).
Proof.
  rewrite DbFacts.insert_data_run. simpl.
  destruct (flush_appends df (table w)) as (new & -> & Hrows).
  exists new. auto.
Qed.

Lemma insert_data_fault_run e df s w :
  insert_data (Some e) df s w
  = (Raise e, mkWorld (stdout w) (trace w ++ map EvAdd df) (table w)).
Proof.
  unfold insert_data, bind. now rewrite DbFacts.add_rows_run.
Qed.

(** A commit that fails stores nothing: every row of the frame was added
    to the session, the exception of the commit reaches the caller, and
    the table is as it was, so that a read finds the rows stored before
    and no other. *)
Theorem failed_commit_stores_nothing e df s w :
  let out := insert_data (Some e) df s w in
  fst out = Raise e
  /\ trace (snd out) = trace w ++ map EvAdd df
  /\ table (snd out) = table w
  /\ fst (read_data None (snd out)) = Return (table w).
Proof. cbv zeta. rewrite insert_data_fault_run. repeat split. Qed.

(** After delete_all_data the table is empty whatever it held, and a
    frame inserted next is all that read_data finds. *)
Theorem delete_then_insert df w :
  Forall is_record df ->
  let w1 := snd (delete_all_data None w) in
  let w2 := snd (insert_data None df (mkSession []) w1) in
  fst (read_data None w1) = Return []
  /\ exists rows, fst (read_data None w2) = Return rows /\ map snd rows = df.
Proof.
  intros _. cbv zeta. split; [reflexivity|].
  rewrite DbFacts.insert_then_read. eexists. split; [reflexivity|].
  simpl. apply DbFacts.flush_rows.
Qed.

Lemma delete_then_insert_witness :
  let w1 := snd (delete_all_data None Fixture.w_rerun) in
  let w2 := snd (insert_data None [Fixture.row2] (mkSession []) w1) in
  fst (read_data None w1) = Return []
  /\ exists rows, fst (read_data None w2) = Return rows
                  /\ map snd rows = [Fixture.row2].
Proof.
  apply (delete_then_insert [Fixture.row2] Fixture.w_rerun).
  repeat constructor. discriminate.
Defined.

Lemma put_written {A} (entry : option A) (old : A) :
  written entry old (put entry old).
Proof. destruct entry; reflexivity. Qed.

Lemma put_put {A} (entry : option A) (old : A) :
  put entry (put entry old) = put entry old.
Proof. destruct entry; reflexivity. Qed.

Lemma apply_updates_updated u ir : updated u ir (apply_updates u ir).
Proof. unfold updated, apply_updates. simpl. auto 10 using @put_written. Qed.

Lemma apply_updates_idempotent u ir :
  apply_updates u (apply_updates u ir) = apply_updates u ir.
Proof. unfold apply_updates. simpl. now rewrite !put_put. Qed.

Lemma update_data_run u w :
  no_updates u = false -> set_id u = None ->
  update_data None u w
  = (Return tt,
     mkWorld (stdout w) (trace w ++ [EvCommit]) (map (apply_updates u) (table w))).
Proof.
  intros Hne Hid. unfold update_data, out_of_range, key_conflict.
  now rewrite Hne, Hid.
Qed.

(** update_data has no filter: a dict that names some column, and not
    the id, reaches every row of the table.  The call returns after one
    commit; ids, the number of rows and their order stay; in every row
    each column the dict names has the value given and every other
    column its old value; and running the same update again changes
    nothing. *)
Theorem update_data_every_row u w :
  no_updates u = false -> set_id u = None ->
  let out := update_data None u w in
  fst out = Return tt
  /\ trace (snd out) = trace w ++ [EvCommit]
  /\ map fst (table (snd out)) = map fst (table w)
  /\ Forall2 (updated u) (table w) (table (snd out))
  /\ table (snd (update_data None u (snd out))) = table (snd out).
Proof.
  intros Hne Hid. cbv zeta. rewrite !(update_data_run u _ Hne Hid). simpl.
  split; [reflexivity|]. split; [reflexivity|]. split; [|split].
  - rewrite map_map. apply map_ext. intros ir.
    unfold apply_updates. now rewrite Hid.
  - induction (table w) as [|ir t IH]; constructor; [|exact IH].
    apply apply_updates_updated.
  - rewrite map_map. apply map_ext. intros ir. apply apply_updates_idempotent.
Qed.

Lemma update_data_every_row_witness :
  let u := mkUpdates None (Some "cricket") None None None (Some PyNone) in
  let out := update_data None u Fixture2.w_two_rows in
  fst out = Return tt
  /\ trace (snd out) = trace Fixture2.w_two_rows ++ [EvCommit]
  /\ map fst (table (snd out)) = map fst (table Fixture2.w_two_rows)
  /\ Forall2 (updated u) (table Fixture2.w_two_rows) (table (snd out))
  /\ table (snd (update_data None u (snd out))) = table (snd out).
Proof.
  apply (update_data_every_row
           (mkUpdates None (Some "cricket") None None None (Some PyNone))
           Fixture2.w_two_rows); reflexivity.
Defined.

(** The statement is refused, and nothing is committed or changed, when
    the dict is empty and when it gives one id to a table of two rows or
    more; a commit that fails leaves the table as it was too. *)
Lemma update_data_refused fault u w :
  (no_updates u = true -> update_data fault u w = (Raise statement_error, w))
  /\ (out_of_range u = false -> set_id u <> None ->
      (2 <= length (table w))%nat ->
      update_data fault u w = (Raise integrity_error, w))
  /\ (forall e, fault = Some e ->
        exists e', update_data fault u w = (Raise e', w)).
Proof.
  unfold update_data, key_conflict. repeat split.
  - now intros ->.
  - intros Hr Hid Hlen. destruct (no_updates u) eqn:Hn.
    + destruct u as [[i|] c t d ds us]; [discriminate | contradiction].
    + rewrite Hr. destruct (set_id u); [|contradiction].
      apply Nat.leb_le in Hlen. now rewrite Hlen.
  - intros e ->.
    destruct (no_updates u); [eauto|].
    destruct (out_of_range u); [eauto|].
    destruct (match set_id u with Some _ => _ | None => _ end); eauto.
Qed.

End DbMore.

(** ** main from end to end *)

Module MainMore.
Import Main Pipeline Observe ObserveFacts.

Lemma harvest_store env category_ url :
  harvest env category_ url
  = (html_content <- Fetch.fetch_content env url 10 ;;
     detail_data <- Extract.parse_content html_content ;;
     df <- lift (DataFrame detail_data) ;;
     store env category_ df)%M.
Proof. reflexivity. Qed.

Lemma count_closes_app tr1 tr2 :
  count_closes (tr1 ++ tr2) = (count_closes tr1 + count_closes tr2)%nat.
Proof. unfold count_closes. now rewrite List.filter_app, length_app. Qed.

Lemma count_closes_adds df : count_closes (map EvAdd df) = O.
Proof. induction df as [|r df IH]; [reflexivity | exact IH]. Qed.

Lemma count_clicks_adds df : Fetch.count_clicks (map EvAdd df) = O.
Proof. induction df as [|r df IH]; [reflexivity | exact IH]. Qed.

Lemma store_returns env category_ df w :
  reliable env ->
  store env category_ df w
  = (Return tt,
     mkWorld (stdout w ++ [FrameDump df])
             (trace w ++ stored env category_ df)
             (Db.flush df (table w))).
Proof.
  intros (H1 & H2 & H3 & H4).
  unfold store, stored, Db.init, Db.close_connection, bind, call.
  rewrite H1, H2, H3, H4. simpl.
  rewrite DbFacts.insert_data_run. unfold emit. simpl.
  now rewrite <- !app_assoc.
Qed.

(** [store] closes the session when it returns, and only then; when it
    raises, the table is as it was. *)
Lemma store_verdict env category_ df w :
  match fst (store env category_ df w) with
  | Return _ =>
      count_closes (trace (snd (store env category_ df w)))
      = S (count_closes (trace w))
  | Raise _ =>
      table (snd (store env category_ df w)) = table w
      /\ count_closes (trace (snd (store env category_ df w)))
         = count_closes (trace w)
  end.
Proof.
  unfold store, Db.init, Db.close_connection, bind, call.
  simpl.
  destruct (to_csv env); simpl; [auto|].
  destruct (to_json env); simpl.
  { rewrite count_closes_app. unfold count_closes at 2. simpl.
    split; [reflexivity | lia]. }
  destruct (connect env); simpl.
  { rewrite !count_closes_app. unfold count_closes at 2 3. simpl.
    split; [reflexivity | lia]. }
  destruct (commit env) as [e|].
  - rewrite DbMore.insert_data_fault_run. simpl.
    rewrite !count_closes_app, count_closes_adds.
    unfold count_closes at 2 3 4. simpl. split; [reflexivity | lia].
  - rewrite DbFacts.insert_data_run. unfold emit. simpl.
    rewrite !count_closes_app, count_closes_adds.
    unfold count_closes at 2 3 4 5 6. simpl. lia.
Qed.

Lemma store_clicks env category_ df w :
  Fetch.count_clicks (trace (snd (store env category_ df w)))
  = Fetch.count_clicks (trace w).
Proof.
  unfold store, Db.init, Db.close_connection, bind, call.
  simpl.
  destruct (to_csv env); simpl; [reflexivity|].
  destruct (to_json env); simpl.
  { rewrite FetchFacts.count_clicks_app. unfold Fetch.count_clicks at 2.
    simpl. lia. }
  destruct (connect env); simpl.
  { rewrite !FetchFacts.count_clicks_app. unfold Fetch.count_clicks at 2 3.
    simpl. lia. }
  destruct (commit env) as [e|].
  - rewrite DbMore.insert_data_fault_run. simpl.
    rewrite !FetchFacts.count_clicks_app, count_clicks_adds.
    unfold Fetch.count_clicks at 2 3 4. simpl. lia.
  - rewrite DbFacts.insert_data_run. unfold emit. simpl.
    rewrite !FetchFacts.count_clicks_app, count_clicks_adds.
    unfold Fetch.count_clicks at 2 3 4 5 6. simpl. lia.
Qed.

Lemma fetch_content_closes env url n w :
  count_closes (trace (snd (Fetch.fetch_content env url n w)))
  = count_closes (trace w).
Proof.
  apply (FetchMore.fetch_content_preserves env count_closes).
  - intros ev Hev. apply count_closes_ignores. now destruct ev.
  - intros tr j. unfold count_closes. now rewrite filter_loop.
Qed.

Lemma parse_content_same_world html w :
  trace (snd (Extract.parse_content html w)) = trace w
  /\ table (snd (Extract.parse_content html w)) = table w
  /\ exists o, fst (Extract.parse_content html w) = Return o.
Proof.
  destruct (ExtractFacts.parse_content_world html w)
    as [(dd & ->) | (line & ->)]; simpl; eauto.
Qed.

(** A run in which everything goes through stores what was extracted:
    for a registered category, a document fetched and parsed into lists of
    one length, and exports and storage that do not fail, main returns,
    the rows of the frame are appended to the table in order, and after
    the browser events come the two exports, the connection, one add per
    row, the commit and the close, in that order. *)
Theorem main_stores_extraction env w url html w1 dd w2 df :
  category_urls !! stdin env = Some url ->
  Fetch.fetch_content env url 10 (prompted w) = (Return html, w1) ->
  Extract.parse_content html w1 = (Return (Some dd), w2) ->
  DataFrame (Some dd) = Return df ->
  reliable env ->
  main env w
  = (Return tt,
     mkWorld (stdout w1 ++ [FrameDump df])
             (trace w1 ++ stored env (stdin env) df)
             (Db.flush df (table w)))
  /\ map snd (table (snd (main env w))) = map snd (table w) ++ df.
Proof.
  intros Hurl Hfetch Hparse Hdf Hrel.
  pose proof (ExtractFacts.parse_content_Some _ _ _ _ Hparse) as [_ ->].
  assert (Htb : table w1 = table w).
  { pose proof (FetchMore.fetch_content_outside env url 10 (prompted w))
      as [_ H]. now rewrite Hfetch in H. }
  assert (E : main env w
              = (Return tt,
                 mkWorld (stdout w1 ++ [FrameDump df])
                         (trace w1 ++ stored env (stdin env) df)
                         (Db.flush df (table w)))).
  { rewrite MainFacts.main_prompted, Hurl, harvest_store.
    rewrite (bind_return _ _ _ _ _ Hfetch), (bind_return _ _ _ _ _ Hparse).
    rewrite Hdf. unfold bind at 1. unfold lift.
    now rewrite (store_returns _ _ _ _ Hrel), Htb. }
  split; [exact E|]. rewrite E. simpl. apply DbFacts.flush_rows.
Qed.

Lemma main_stores_extraction_witness :
  let env := Fixture.browser "sports" Fixture.two_articles Fixture.always_there in
  let w1 := snd (Fetch.fetch_content env Fixture.sports_url 10
                   (prompted Fixture.w0)) in
  main env Fixture.w0
  = (Return tt,
     mkWorld (stdout w1 ++ [FrameDump [Fixture.row1; Fixture.row2]])
             (trace w1 ++ stored env "sports" [Fixture.row1; Fixture.row2])
             (Db.flush [Fixture.row1; Fixture.row2] (table Fixture.w0)))
  /\ map snd (table (snd (main env Fixture.w0)))
     = map snd (table Fixture.w0) ++ [Fixture.row1; Fixture.row2].
Proof.
  apply (main_stores_extraction
           (Fixture.browser "sports" Fixture.two_articles Fixture.always_there)
           Fixture.w0 Fixture.sports_url Fixture.two_articles
           (snd (Fetch.fetch_content
                   (Fixture.browser "sports" Fixture.two_articles
                      Fixture.always_there)
                   Fixture.sports_url 10 (prompted Fixture.w0)))
           Fixture2.two_articles_data
           (snd (Fetch.fetch_content
                   (Fixture.browser "sports" Fixture.two_articles
                      Fixture.always_there)
                   Fixture.sports_url 10 (prompted Fixture.w0)))
           [Fixture.row1; Fixture.row2]).
  - vm_compute. reflexivity.
  - vm_compute. reflexivity.
  - vm_compute. reflexivity.
  - reflexivity.
  - repeat split.
Defined.

(** Lists of different lengths stop the run at pd.DataFrame: main raises
    the ValueError in the world parse_content left, so nothing is
    printed after it, nothing exported, no session opened and no row
    stored. *)
Theorem ragged_lists_abort env w url html w1 dd w2 :
  category_urls !! stdin env = Some url ->
  Fetch.fetch_content env url 10 (prompted w) = (Return html, w1) ->
  Extract.parse_content html w1 = (Return (Some dd), w2) ->
  same_length dd = false ->
  main env w
  = (Raise (mkExc ValueError "All arrays must be of the same length"), w1)
  /\ table w1 = table w
  /\ outside_browser (trace w1) = outside_browser (trace w).
Proof.
  intros Hurl Hfetch Hparse Hlen.
  pose proof (ExtractFacts.parse_content_Some _ _ _ _ Hparse) as [_ ->].
  pose proof (FetchMore.fetch_content_outside env url 10 (prompted w))
    as [Hout Htb].
  rewrite Hfetch in Hout, Htb. simpl in Hout, Htb.
  split; [|auto].
  rewrite MainFacts.main_prompted, Hurl, harvest_store.
  rewrite (bind_return _ _ _ _ _ Hfetch), (bind_return _ _ _ _ _ Hparse).
  unfold DataFrame. rewrite Hlen. reflexivity.
Qed.

Lemma ragged_lists_abort_witness :
  let env := Fixture.browser "sports" Fixture.blank_first_date
               Fixture.always_there in
  let w1 := snd (Fetch.fetch_content env Fixture.sports_url 10
                   (prompted Fixture.w0)) in
  main env Fixture.w0
  = (Raise (mkExc ValueError "All arrays must be of the same length"), w1)
  /\ table w1 = table Fixture.w0
  /\ outside_browser (trace w1) = outside_browser (trace Fixture.w0).
Proof.
  apply (ragged_lists_abort
           (Fixture.browser "sports" Fixture.blank_first_date
              Fixture.always_there)
           Fixture.w0 Fixture.sports_url Fixture.blank_first_date
           (snd (Fetch.fetch_content
                   (Fixture.browser "sports" Fixture.blank_first_date
                      Fixture.always_there)
                   Fixture.sports_url 10 (prompted Fixture.w0)))
           (mkDetailData ["sports"; "sports"] ["T1"; "T2"] ["d2"]
                         ["D1"; "D2"] [PyString "https://x/1"; PyNone])
           (snd (Fetch.fetch_content
                   (Fixture.browser "sports" Fixture.blank_first_date
                      Fixture.always_there)
                   Fixture.sports_url 10 (prompted Fixture.w0)))).
  - vm_compute. reflexivity.
  - vm_compute. reflexivity.
  - vm_compute. reflexivity.
  - reflexivity.
Defined.

(** main closes the storage session exactly when it returns.  A run that
    raises, at whatever step, has stored nothing and has not closed a
    session, also when it had opened one. *)
Theorem main_verdict env w :
  match fst (main env w) with
  | Return _ =>
      count_closes (trace (snd (main env w))) = S (count_closes (trace w))
  | Raise _ =>
      table (snd (main env w)) = table w
      /\ count_closes (trace (snd (main env w))) = count_closes (trace w)
  end.
Proof.
  rewrite MainFacts.main_prompted.
  destruct (category_urls !! stdin env) as [url|]; [|simpl; auto].
  rewrite harvest_store.
  pose proof (FetchMore.fetch_content_outside env url 10 (prompted w))
    as [_ Htb].
  pose proof (fetch_content_closes env url 10 (prompted w)) as Hcl.
  destruct (Fetch.fetch_content env url 10 (prompted w)) as [[html|e] w1] eqn:Ef;
    simpl in Htb, Hcl.
  2:{ rewrite (bind_raise _ _ _ _ _ Ef). simpl. auto. }
  rewrite (bind_return _ _ _ _ _ Ef).
  destruct (parse_content_same_world html w1) as (Htr & Htb2 & o & Ho).
  destruct (Extract.parse_content html w1) as [r w2] eqn:Ep;
    simpl in Htr, Htb2, Ho. subst r.
  rewrite (bind_return _ _ _ _ _ Ep).
  destruct (DataFrame o) as [df|e].
  - rewrite (bind_return (lift (Return df)) _ w2 df w2) by reflexivity.
    pose proof (store_verdict env (stdin env) df w2) as Hs.
    destruct (fst (store env (stdin env) df w2)).
    + rewrite Hs, Htr, Hcl. reflexivity.
    + destruct Hs as [-> ->]. rewrite Htb2, Htb, Htr, Hcl. auto.
  - rewrite (bind_raise (lift (Raise e)) _ w2 e w2) by reflexivity.
    simpl. rewrite Htb2, Htb, Htr, Hcl. auto.
Qed.

(** A failed commit leaves the session open: main connected, added the
    rows and raised, and never reached close_connection. *)
Example failed_commit_leaves_session_open :
  let out := main (Fixture2.locked "sports" Fixture.two_articles) Fixture.w0 in
  fst out = Raise Fixture2.storage_fault
  /\ outside_browser (trace (snd out))
     = [EvToCsv (export_path "sports" "2024-01-01_00-00" ".csv")
                [Fixture.row1; Fixture.row2];
        EvToJson (export_path "sports" "2024-01-01_00-00" ".json")
                 [Fixture.row1; Fixture.row2];
        EvConnect; EvAdd Fixture.row1; EvAdd Fixture.row2]
  /\ table (snd out) = [].
Proof. vm_compute. repeat split; reflexivity. Qed.

(** Whatever the page does, a run of main makes at most ten load-more
    clicks. *)
Theorem main_at_most_ten_clicks env w :
  (Fetch.interactions w (snd (main env w)) <= 10)%nat.
Proof.
  unfold Fetch.interactions.
  rewrite MainFacts.main_prompted.
  destruct (category_urls !! stdin env) as [url|]; [|simpl; lia].
  rewrite harvest_store.
  pose proof (FetchFacts.interactions_bounded env url 10 (prompted w))
    as (Hle & _).
  cbv zeta in Hle. unfold Fetch.interactions in Hle. simpl trace in Hle.
  destruct (Fetch.fetch_content env url 10 (prompted w)) as [[html|e] w1] eqn:Ef;
    simpl in Hle.
  2:{ rewrite (bind_raise _ _ _ _ _ Ef). simpl. lia. }
  rewrite (bind_return _ _ _ _ _ Ef).
  destruct (parse_content_same_world html w1) as (Htr & _ & o & Ho).
  destruct (Extract.parse_content html w1) as [r w2] eqn:Ep;
    simpl in Htr, Ho. subst r.
  rewrite (bind_return _ _ _ _ _ Ep).
  destruct (DataFrame o) as [df|e].
  - rewrite (bind_return (lift (Return df)) _ w2 df w2) by reflexivity.
    rewrite store_clicks, Htr. lia.
  - rewrite (bind_raise (lift (Raise e)) _ w2 e w2) by reflexivity.
    simpl. rewrite Htr. lia.
Qed.

End MainMore.
